(** * ansible_runner.cleanup: a shallow embedding and its properties

    The module [ansible_runner/cleanup.py] removes stale private data
    directories, the registry credential directories that belong to them,
    and container images.  Everything it does goes through the operating
    system: [glob.iglob], [open], [os.listdir], [os.kill], [shutil.rmtree]
    and [subprocess.run].  The embedding therefore threads an explicit
    [world] (file system, process table, container runtime, and the trace of
    calls made so far) through a state-and-exception monad, and each Python
    function below is translated statement by statement. *)

From stdpp Require Import gmap strings list fin_maps.
From Stdlib Require Import ZArith Lia Ascii.

Local Open Scope Z_scope.

(** ** Python strings

    Strings are sequences of ASCII characters.  The helpers follow the
    behaviour of the [str] methods the module calls. *)

Module PyStr.

Definition newline : ascii := Ascii.ascii_of_nat 10.
Definition dquote : ascii := Ascii.ascii_of_nat 34.

(** [str.isspace] on ASCII: tab, LF, VT, FF, CR, the four separators
    0x1c-0x1f, and the space. *)
Definition isspace (c : ascii) : bool :=
  let n := Ascii.nat_of_ascii c in
  ((9 <=? n) && (n <=? 13) || (28 <=? n) && (n <=? 32))%nat.

Definition eqc (a b : ascii) : bool := Ascii.eqb a b.

Fixpoint lstrip_by (p : ascii → bool) (s : string) : string :=
  match s with
  | EmptyString => EmptyString
  | String c s' => if p c then lstrip_by p s' else s
  end.

Fixpoint rstrip_by (p : ascii → bool) (s : string) : string :=
  match s with
  | EmptyString => EmptyString
  | String c s' =>
      match rstrip_by p s' with
      | EmptyString => if p c then EmptyString else String c EmptyString
      | r => String c r
      end
  end.

Definition strip_by (p : ascii → bool) (s : string) : string :=
  rstrip_by p (lstrip_by p s).

(** [s.strip()] *)
Definition strip (s : string) : string := strip_by isspace s.

(** [s.strip(c)] for a one-character argument *)
Definition strip_char (c : ascii) (s : string) : string := strip_by (eqc c) s.

(** [s.split(sep)] for a one-character separator: never the empty list. *)
Fixpoint split (sep : ascii) (s : string) : list string :=
  match s with
  | EmptyString => [EmptyString]
  | String c s' =>
      if eqc c sep then EmptyString :: split sep s'
      else match split sep s' with
           | h :: t => String c h :: t
           | [] => [String c EmptyString]
           end
  end.

(** [sub in s]: [sub] occurs in [s] as a contiguous substring. *)
Fixpoint contains (sub s : string) : bool :=
  String.prefix sub s ||
  match s with
  | EmptyString => false
  | String _ s' => contains sub s'
  end.

(** [s.count(sub)] for a non-empty [sub]: occurrences counted from the
    left without overlap.  [skip] is the number of characters still
    covered by the occurrence found last. *)
Fixpoint count_from (sub s : string) (skip : nat) : nat :=
  match s with
  | EmptyString => 0
  | String _ s' =>
      match skip with
      | O => if String.prefix sub s
             then S (count_from sub s' (String.length sub - 1))
             else count_from sub s' 0
      | S k => count_from sub s' k
      end
  end.

Definition count (sub s : string) : nat := count_from sub s 0.

(** [f.readline()] on a freshly opened text file: everything up to and
    including the first newline. *)
Fixpoint readline (s : string) : string :=
  match s with
  | EmptyString => EmptyString
  | String c s' =>
      if eqc c newline then String c EmptyString else String c (readline s')
  end.

(** [s] without the leading [p], when [s] starts with [p]. *)
Fixpoint strip_prefix (p s : string) : option string :=
  match p, s with
  | EmptyString, _ => Some s
  | String a p', String b s' => if eqc a b then strip_prefix p' s' else None
  | String _ _, EmptyString => None
  end.

Definition is_digit (c : ascii) : bool :=
  let n := Ascii.nat_of_ascii c in ((48 <=? n) && (n <=? 57))%nat.

Definition digit_val (c : ascii) : Z := Z.of_nat (Ascii.nat_of_ascii c) - 48.

(** The digits of a decimal literal after its first digit: digits, each
    optionally preceded by one underscore. *)
Fixpoint int_digits (acc : Z) (s : string) : option Z :=
  match s with
  | EmptyString => Some acc
  | String c s' =>
      if is_digit c then int_digits (10 * acc + digit_val c) s'
      else if eqc c "_"%char then
        match s' with
        | String d s'' =>
            if is_digit d then int_digits (10 * acc + digit_val d) s'' else None
        | EmptyString => None
        end
      else None
  end.

(** The number of decimal digits in [s]. *)
Fixpoint count_digits (s : string) : nat :=
  match s with
  | EmptyString => O
  | String c s' => ((if is_digit c then 1 else 0) + count_digits s')%nat
  end.

(** [sys.int_info.default_max_str_digits]: [int] refuses a literal with
    more decimal digits than this. *)
Definition int_max_str_digits : nat := 4300.

Definition int_unsigned (s : string) : option Z :=
  match s with
  | String c s' =>
      if is_digit c && (count_digits s <=? int_max_str_digits)%nat
      then int_digits (digit_val c) s'
      else None
  | EmptyString => None
  end.

(** The characters [int] skips around a literal given as an ASCII [str]:
    tab, LF, VT, FF, CR and the space.  The separators 0x1c-0x1f, which
    [str.strip] drops, are not among them. *)
Definition int_space (c : ascii) : bool :=
  let n := Ascii.nat_of_ascii c in
  ((9 <=? n) && (n <=? 13) || (n =? 32))%nat.

(** [int(s)] in base ten: surrounding white space is dropped, one sign is
    allowed, then a decimal literal of at most [int_max_str_digits]
    digits.  [None] stands for [ValueError]. *)
Definition int (s : string) : option Z :=
  match strip_by int_space s with
  | String "+"%char s' => int_unsigned s'
  | String "-"%char s' => Z.opp <$> int_unsigned s'
  | s' => int_unsigned s'
  end.

End PyStr.

(** ** Exceptions, results and the world *)

(** The exception classes that can reach this module.  [IOError] is an
    alias of [OSError]; the first four constructors are subclasses of it.
    [UnicodeDecodeError] is what decoding captured output raises, and
    [OverflowError] what [os.kill] raises for a number that is no process
    id; neither is an [OSError]. *)
Inductive exn : Type :=
  | FileNotFoundError
  | NotADirectoryError
  | PermissionError
  | ProcessLookupError
  | OSError
  | ValueError
  | UnicodeDecodeError
  | OverflowError
  | AttributeError
  | RuntimeError.

(** [isinstance(e, OSError)] *)
Definition is_OSError (e : exn) : bool :=
  match e with
  | FileNotFoundError | NotADirectoryError | PermissionError
  | ProcessLookupError | OSError => true
  | ValueError | UnicodeDecodeError | OverflowError
  | AttributeError | RuntimeError => false
  end.

(** [isinstance(e, FileNotFoundError)] *)
Definition is_FileNotFoundError (e : exn) : bool :=
  match e with
  | FileNotFoundError => true
  | _ => false
  end.

Inductive result (A : Type) : Type :=
  | Ok (a : A)
  | Raise (e : exn).
Arguments Ok {A} a.
Arguments Raise {A} e.

(** One constructor per [print] call of the module, carrying the values
    that the call interpolates into its text. *)
Inductive message : Type :=
  | MsgErrorRunningCommand                          (* 'Error running command:' *)
  | MsgCommandLine (cmd : list string)              (* ' '.join(cmd) *)
  | MsgStdoutHeader                                 (* 'Stdout:' *)
  | MsgStdout (stdout : string)                     (* stdout *)
  | MsgRemovedDirs (ct : Z) (pattern : string)      (* 'Removed {ct} private data dir(s) in pattern {pattern}' *)
  | MsgRunningJobs (running_idents : list string)   (* 'Excluding from cleanup running jobs {running_idents}' *)
  | MsgRemovedAuthDir (dir : string)                (* 'Removed associated registry auth dir {dir}' *)
  | MsgRemovedImages (rm_ct : Z)                    (* 'Removed {rm_ct} image(s)' *)
  | MsgPruned                                       (* 'Pruned images' *)
  | MsgChanged (changed : bool).                    (* '(changed: True)' / '(changed: False)' *)

(** The calls that leave the process, in the order they are made.  A call
    of [subprocess.run] is recorded with its outcome: the exception it
    raised, or the return code and the captured standard output of the
    finished process. *)
Inductive event : Type :=
  | EvGlob (pattern : string)
  | EvOpen (path : string)
  | EvListdir (path : string)
  | EvKill (pid : Z) (sig : Z)
  | EvRmtree (path : string)
  | EvRun (cmd : list string) (outcome : result (Z * option string))
  | EvPrint (m : message).

(** What the file system holds at one path, as far as this module can
    observe it. *)
Record entry : Type := {
  (** the text of [<path>/pid] as reading in text mode delivers it, or
      the exception raised on opening or reading it *)
  e_pid : result string;
  (** the outcome of [os.listdir(<path>/artifacts)] *)
  e_artifacts : result (list string);
  (** the exception [shutil.rmtree(<path>)] raises, if any *)
  e_rmtree : option exn
}.

(** A path that does not exist. *)
Definition absent : entry :=
  {| e_pid := Raise FileNotFoundError;
     e_artifacts := Raise FileNotFoundError;
     e_rmtree := Some FileNotFoundError |}.

Record world : Type := {
  (** the existing paths *)
  w_fs : gmap string entry;
  (** [w_fnmatch pattern path]: does the glob pattern select the path? *)
  w_fnmatch : string → string → bool;
  (** [os.kill(pid, 0)]: the exception raised, if any *)
  w_kill : Z → option exn;
  (** the container runtime: what [subprocess.run] does with a command
      line, given everything that happened before.  It raises when the
      program cannot be started; otherwise the process finishes with a
      return code and with standard output, given as the text its bytes
      decode to as UTF-8, or [None] when they do not decode *)
  w_exec : list event → list string → result (Z * option string);
  (** the calls made so far, latest first *)
  w_trace : list event
}.

Definition log (ev : event) (w : world) : world :=
  {| w_fs := w_fs w; w_fnmatch := w_fnmatch w; w_kill := w_kill w;
     w_exec := w_exec w; w_trace := ev :: w_trace w |}.

Definition set_fs (fs : gmap string entry) (w : world) : world :=
  {| w_fs := fs; w_fnmatch := w_fnmatch w; w_kill := w_kill w;
     w_exec := w_exec w; w_trace := w_trace w |}.

Definition lookup_entry (path : string) (w : world) : entry :=
  default absent (w_fs w !! path).

(** ** The monad: state passing with exceptions.  The world survives an
    exception, since what was deleted stays deleted. *)

Definition M (A : Type) : Type := world → result A * world.

#[global] Instance M_ret : MRet M := λ A a w, (Ok a, w).

#[global] Instance M_bind : MBind M := λ A B f m w,
  match m w with
  | (Ok a, w') => f a w'
  | (Raise e, w') => (Raise e, w')
  end.

Definition raise {A : Type} (e : exn) : M A := λ w, (Raise e, w).

(** [try: m except <handles>: h] *)
Definition try_except {A : Type} (m : M A) (handles : exn → bool) (h : M A) : M A :=
  λ w, match m w with
       | (Ok a, w') => (Ok a, w')
       | (Raise e, w') => if handles e then h w' else (Raise e, w')
       end.

(** [for x in l: s = body x s] *)
Fixpoint for_each {A S : Type} (l : list A) (body : A → S → M S) (s : S) : M S :=
  match l with
  | [] => mret s
  | x :: l' => s' ← body x s; for_each l' body s'
  end.

(** ** The operating system *)

Definition print (m : message) : M unit := λ w, (Ok tt, log (EvPrint m) w).

(** [path] is [dir] or lies beneath it. *)
Definition beneath (dir path : string) : bool :=
  String.eqb dir path || String.prefix (dir +:+ "/") path.

(** The paths [glob.iglob(pattern)] yields: the existing paths the pattern
    selects, in the order the file system lists them.  The listing is
    taken when the loop over it starts. *)
Definition matches (pattern : string) (w : world) : list string :=
  filter (λ p, w_fnmatch w pattern p = true) (map_to_list (w_fs w)).*1.

Definition iglob (pattern : string) : M (list string) := λ w,
  (Ok (matches pattern w), log (EvGlob pattern) w).

(** [open(os.path.join(dir, 'pid'), 'r')] and reading its text *)
Definition open_pid (dir : string) : M string := λ w,
  (e_pid (lookup_entry dir w), log (EvOpen dir) w).

(** [os.listdir(os.path.join(dir, 'artifacts'))] *)
Definition listdir_artifacts (dir : string) : M (list string) := λ w,
  (e_artifacts (lookup_entry dir w), log (EvListdir dir) w).

(** [os.kill(pid, sig)] with the null signal: nothing is delivered, only
    the existence of the process is checked. *)
Definition os_kill (pid sig : Z) : M unit := λ w,
  (match w_kill w pid with Some e => Raise e | None => Ok tt end,
   log (EvKill pid sig) w).

(** [shutil.rmtree(dir)]: on success the path and everything beneath it
    are gone; a call that raises is taken to have removed nothing. *)
Definition rmtree (dir : string) : M unit := λ w,
  let w' := log (EvRmtree dir) w in
  match e_rmtree (lookup_entry dir w) with
  | Some e => (Raise e, w')
  | None =>
      (Ok tt, set_fs (filter (λ kv, beneath dir kv.1 = false) (w_fs w)) w')
  end.

(** [subprocess.run(cmd, capture_output=True)]: the return code and the
    captured standard output of the finished process, or the exception of
    a program that cannot be started. *)
Definition subprocess_run (cmd : list string) : M (Z * option string) := λ w,
  (w_exec w (w_trace w) cmd, log (EvRun cmd (w_exec w (w_trace w) cmd)) w).

(** [str(b, encoding='utf-8')] for captured output [b] *)
Definition decode_utf8 (b : option string) : M string :=
  match b with
  | Some text => mret text
  | None => raise UnicodeDecodeError
  end.

(** ** The module [ansible_runner.cleanup] *)

(** The values [is_alive] returns: [False], [0] and [1]. *)
Inductive pyvalue : Type :=
  | PyBool (b : bool)
  | PyInt (n : Z).

(** Truth value of an object in a condition. *)
Definition truthy (v : pyvalue) : bool :=
  match v with
  | PyBool b => b
  | PyInt n => negb (n =? 0)
  end.

(** [signal.SIG_DFL], whose integer value is 0. *)
Definition SIG_DFL : Z := 0.

(** The dict of parsed command line options that [run_cleanup] receives,
    one field per key; the value of an option that was not given is
    [None]. *)
Record options : Type := {
  arg_file_pattern : option string;
  arg_exclude_idents : option string;
  arg_remove_images : option string;
  arg_image_prune : bool;
  arg_process_isolation_executable : string
}.

(** Truth value of [vargs.get(key)] for a string option: given and not
    empty. *)
Definition given (v : option string) : bool :=
  match v with
  | Some s => negb (String.eqb s "")
  | None => false
  end.

Definition run_command (cmd : list string) : M string :=
  '(returncode, captured) ← subprocess_run cmd;
  stdout ← decode_utf8 captured;
  if negb (returncode =? 0) then
    _ ← print MsgErrorRunningCommand;
    _ ← print (MsgCommandLine cmd);
    _ ← print MsgStdoutHeader;
    _ ← print (MsgStdout stdout);
    raise RuntimeError
  else mret (PyStr.strip stdout).

Definition is_alive (dir : string) : M pyvalue :=
  pid ← try_except
           (text ← open_pid dir;
            match PyStr.int (PyStr.readline text) with
            | Some pid => mret (Some pid)
            | None => raise ValueError
            end)
           is_OSError
           (mret None);
  match pid with
  | None => mret (PyBool false)
  | Some pid =>
      try_except
        (_ ← os_kill pid SIG_DFL; mret (PyInt 0))
        is_OSError
        (mret (PyInt 1))
  end.

Definition _get_idents_from_pdd (dir : string) : M (list string) :=
  try_except (listdir_artifacts dir) is_FileNotFoundError (mret []).

(** [ident in idents] for a list of strings *)
Definition mem (ident : string) (idents : list string) : bool :=
  bool_decide (ident ∈ idents).

(** The local variables of the first loop of [cleanup_dirs]. *)
Record scan : Type := {
  ct : Z;
  running_idents : list string;
  deleted_idents : list string
}.

(** Body of [for dir in glob.iglob(pattern)]. *)
Definition scan_dir (exclude_idents : list string) (dir : string) (s : scan) : M scan :=
  if existsb (λ ident, PyStr.contains ident dir) exclude_idents then mret s
  else
    dir_idents ← _get_idents_from_pdd dir;
    alive ← is_alive dir;
    if truthy alive then
      mret {| ct := ct s;
              running_idents := running_idents s ++ dir_idents;
              deleted_idents := deleted_idents s |}
    else
      _ ← rmtree dir;
      mret {| ct := ct s + 1;
              running_idents := running_idents s;
              deleted_idents := deleted_idents s ++ dir_idents |}.

(** The last underscore of [s]: the text before it and the text after it. *)
Fixpoint rsplit_underscore (s : string) : option (string * string) :=
  match s with
  | EmptyString => None
  | String c s' =>
      match rsplit_underscore s' with
      | Some (a, b) => Some (String c a, b)
      | None => if PyStr.eqc c "_"%char then Some (EmptyString, s') else None
      end
  end.

(** The text a pattern [.*] ... [$] can cover: a string without newline,
    or such a string followed by one final newline. *)
Fixpoint single_line (s : string) : option string :=
  match s with
  | EmptyString => Some EmptyString
  | String c s' =>
      if PyStr.eqc c PyStr.newline then
        match s' with EmptyString => Some EmptyString | _ => None end
      else String c <$> single_line s'
  end.

Section Cleanup.

(** [ansible_runner.defaults.registry_auth_prefix], a constant of another
    module.  It is plain text: no character of it is special in a glob
    pattern or in a regular expression. *)
Variable registry_auth_prefix : string.

Definition registry_auth_pattern : string :=
  "/tmp/" +:+ registry_auth_prefix +:+ "*_*".

(** [ident_re.match(dir)] and its group [ident].  The compiled pattern is
    the anchor [^], the text [/tmp/{registry_auth_prefix}], the named group
    [ident] holding a greedy [.*], an underscore, a lazy [.*?] and the
    anchor [$].  The greedy group extends to the last underscore; [.] does
    not match a newline and [$] matches at the end or before a final
    newline.  [None] is a failed match. *)
Definition ident_re_match (dir : string) : option string :=
  rest ← PyStr.strip_prefix ("/tmp/" +:+ registry_auth_prefix) dir;
  line ← single_line rest;
  fst <$> rsplit_underscore line.

(** Body of [for dir in glob.iglob(registry_auth_pattern)]. *)
Definition auth_dir (exclude_idents running_idents deleted_idents : list string)
    (dir : string) (_ : unit) : M unit :=
  match ident_re_match dir with
  | None => raise AttributeError   (* None has no attribute 'group' *)
  | Some ident =>
      if mem ident exclude_idents || mem ident running_idents then mret tt
      else if mem ident deleted_idents then
        _ ← rmtree dir;
        print (MsgRemovedAuthDir dir)
      else mret tt
  end.

(** The first loop of [cleanup_dirs] with its local variables. *)
Definition cleanup_dirs_scan (pattern : string) (exclude_idents : list string) : M scan :=
  dirs ← iglob pattern;
  for_each dirs (scan_dir exclude_idents)
    {| ct := 0; running_idents := []; deleted_idents := [] |}.

(** The rest of [cleanup_dirs]: the two reports and the second loop. *)
Definition cleanup_dirs_auth (pattern : string) (exclude_idents : list string)
    (s : scan) : M Z :=
  _ ← (if negb (ct s =? 0) then print (MsgRemovedDirs (ct s) pattern) else mret tt);
  _ ← (if negb (bool_decide (running_idents s = []))
       then print (MsgRunningJobs (running_idents s)) else mret tt);
  dirs ← iglob registry_auth_pattern;
  _ ← for_each dirs (auth_dir exclude_idents (running_idents s) (deleted_idents s)) tt;
  mret (ct s).

Definition cleanup_dirs (pattern : string) (exclude_idents : list string) : M Z :=
  s ← cleanup_dirs_scan pattern exclude_idents;
  cleanup_dirs_auth pattern exclude_idents s.

(** The second argument of [runtime images]; it contains the two double
    quotes that [cleanup_images] strips from each line of the answer. *)
Definition images_format : string :=
  "--format=" +:+ String PyStr.dquote
    ("{{.Repository}}:{{.Tag}}" +:+ String PyStr.dquote EmptyString).

(** Body of [for discovered_tag in stdout.split(newline)]. *)
Definition remove_tag (runtime discovered_tag : string) (rm_ct : Z) : M Z :=
  stdout ← run_command
    [runtime; "rmi"; PyStr.strip_char PyStr.dquote (PyStr.strip discovered_tag); "-f"];
  mret (rm_ct + Z.of_nat (PyStr.count "Untagged:" stdout)).

(** Body of [for image_tag in images]. *)
Definition remove_image (runtime image_tag : string) (rm_ct : Z) : M Z :=
  stdout ← run_command [runtime; "images"; images_format; image_tag];
  if String.eqb stdout "" then mret rm_ct
  else for_each (PyStr.split PyStr.newline stdout) (remove_tag runtime) rm_ct.

Definition cleanup_images (images : list string) (runtime : string) : M Z :=
  rm_ct ← for_each images (remove_image runtime) 0;
  _ ← (if negb (rm_ct =? 0) then print (MsgRemovedImages rm_ct) else mret tt);
  mret rm_ct.

Definition prune_images (runtime : string) : M bool :=
  stdout ← run_command [runtime; "image"; "prune"; "-f"];
  if String.eqb stdout "" || String.eqb stdout "Total reclaimed space: 0B"
  then mret false
  else
    _ ← print MsgPruned;
    mret true.

Definition comma_sep_parse (vargs : options) (key : options → option string) : list string :=
  if given (key vargs) then PyStr.split ","%char (default "" (key vargs))
  else [].

Definition run_cleanup (vargs : options) : M unit :=
  let exclude_idents := comma_sep_parse vargs arg_exclude_idents in
  let remove_images := comma_sep_parse vargs arg_remove_images in
  dir_ct ← (if given (arg_file_pattern vargs)
            then cleanup_dirs (default "" (arg_file_pattern vargs)) exclude_idents
            else mret 0);
  image_ct ← (if negb (bool_decide (remove_images = []))
              then cleanup_images remove_images (arg_process_isolation_executable vargs)
              else mret 0);
  pruned ← (if arg_image_prune vargs
            then prune_images (arg_process_isolation_executable vargs)
            else mret false);
  if negb (dir_ct =? 0) || negb (image_ct =? 0) || pruned
  then print (MsgChanged true)
  else print (MsgChanged false).

(** ** Vocabulary of the properties *)

(** The event is a call of [shutil.rmtree]. *)
Definition is_rmtree (ev : event) : bool :=
  match ev with
  | EvRmtree _ => true
  | _ => false
  end.

(** The event is not an [rmtree] of [p] or of a directory above it. *)
Definition spares (p : string) (ev : event) : Prop :=
  ∀ d, ev = EvRmtree d → beneath d p = false.

(** [frame P w w']: going from [w] to [w'] keeps the environment, adds
    only events that satisfy [P] to the trace, keeps every path that does
    not lie beneath a directory given to [rmtree] meanwhile, and creates
    no path. *)
Record frame (P : event → Prop) (w w' : world) : Prop := {
  frame_fnmatch : w_fnmatch w' = w_fnmatch w;
  frame_kill : w_kill w' = w_kill w;
  frame_exec : w_exec w' = w_exec w;
  frame_trace : ∃ new, w_trace w' = new ++ w_trace w ∧ Forall P new ∧
                       ∀ p, Forall (spares p) new → w_fs w' !! p = w_fs w !! p;
  frame_gone : ∀ p, w_fs w !! p = None → w_fs w' !! p = None
}.

(** Every run of [m] is framed by [P]. *)
Definition emits {A : Type} (P : event → Prop) (m : M A) : Prop :=
  ∀ w, frame P w (m w).2.

(** [any(ident in dir for ident in exclude_idents)] *)
Definition excluded (exclude_idents : list string) (dir : string) : bool :=
  existsb (λ ident, PyStr.contains ident dir) exclude_idents.

(** The events the first loop can cause: the glob itself, signals, and
    reading or removing a selected directory that is not excluded. *)
Definition scan_event (pattern : string) (exclude_idents : list string) (w : world)
    (ev : event) : Prop :=
  ev = EvGlob pattern ∨
  (∃ pid, ev = EvKill pid SIG_DFL) ∨
  (∃ dir, dir ∈ matches pattern w ∧ excluded exclude_idents dir = false ∧
          (ev = EvOpen dir ∨ ev = EvListdir dir ∨ ev = EvRmtree dir)).

(** The condition under which the second loop removes a directory whose
    name carries [ident]. *)
Definition removable (exclude_idents : list string) (s : scan) (ident : string) : Prop :=
  ident ∈ deleted_idents s ∧ (ident ∉ exclude_idents) ∧ (ident ∉ running_idents s).

(** The events of the second loop: reports, and removals of selected
    directories whose identifier is removable. *)
Definition auth_event (exclude_idents : list string) (s : scan) (dirs : list string)
    (ev : event) : Prop :=
  (∃ m, ev = EvPrint m) ∨
  (∃ dir ident, ev = EvRmtree dir ∧ dir ∈ dirs ∧ ident_re_match dir = Some ident ∧
                removable exclude_idents s ident).

(** A result that is a value, not an exception. *)
Definition returned {A : Type} (r : result A) : Prop := ∃ a, r = Ok a.

(** [sub] is not empty and its last character is not stripped by [p]. *)
Fixpoint ends_unstripped (p : ascii → bool) (sub : string) : Prop :=
  match sub with
  | EmptyString => False
  | String a EmptyString => p a = false
  | String _ sub' => ends_unstripped p sub'
  end.

(** A command line of the form [runtime rmi ...]. *)
Definition is_rmi (cmd : list string) : bool :=
  match cmd with
  | _ :: sub :: _ => String.eqb sub "rmi"
  | _ => false
  end.

(** The outcome of a process that finished with return code [rc] and
    wrote the text [out] to its standard output. *)
Definition completed (rc : Z) (out : string) : result (Z * option string) :=
  Ok (rc, Some out).

(** Occurrences of the marker in the standard output of one event, when
    the event is an [rmi] invocation. *)
Definition untagged_in (ev : event) : Z :=
  match ev with
  | EvRun cmd (Ok (_, Some stdout)) =>
      if is_rmi cmd then Z.of_nat (PyStr.count "Untagged:" stdout) else 0
  | _ => 0
  end.

(** The sum of [untagged_in] over a piece of trace. *)
Definition untagged_total (evs : list event) : Z :=
  foldr (λ ev n, untagged_in ev + n) 0 evs.

(** Every command the runtime is given exits with status 0. *)
Definition runtime_succeeds (w : world) : Prop :=
  ∀ tr cmd, ∃ out, w_exec w tr cmd = completed 0 out.

(** The lines of the answer to a listing that stand for an image: the
    lines of the answer without surrounding white space, and none when
    nothing is left of it. *)
Definition listed_refs (out : string) : list string :=
  if String.eqb (PyStr.strip out) "" then []
  else PyStr.split PyStr.newline (PyStr.strip out).

(** [ev] is the run of [runtime rmi <ref> -f] for the line [l] of a
    listing, where [<ref>] is [l] without surrounding white space and
    double quotes; the run exited with status 0. *)
Definition rmi_run (runtime l : string) (ev : event) : Prop :=
  ∃ out, ev = EvRun [runtime; "rmi"; PyStr.strip_char PyStr.dquote (PyStr.strip l); "-f"]
                (completed 0 out).

(** [evs] are the runs made for the requested tag [tag], earliest first:
    its listing, which exited with status 0, and then one [rmi] for each
    line of the answer, so none when the answer is empty. *)
Definition tag_runs (runtime tag : string) (evs : list event) : Prop :=
  ∃ out rmis,
    evs = EvRun [runtime; "images"; images_format; tag] (completed 0 out) :: rmis ∧
    Forall2 (rmi_run runtime) (listed_refs out) rmis.

(** Every run among the events [evs], which follow the trace [tr]
    earliest first, has the outcome the runtime [exec] gives at that
    point. *)
Fixpoint replayed (exec : list event → list string → result (Z * option string))
    (tr evs : list event) : Prop :=
  match evs with
  | [] => True
  | ev :: evs' =>
      match ev with EvRun cmd outcome => exec tr cmd = outcome | _ => True end ∧
      replayed exec (ev :: tr) evs'
  end.

(** Calls on the file system and the process table. *)
Definition file_event (ev : event) : bool :=
  match ev with
  | EvGlob _ | EvOpen _ | EvListdir _ | EvKill _ _ | EvRmtree _ => true
  | EvRun _ _ | EvPrint _ => false
  end.

(** Runs of [runtime images ...] and [runtime rmi ...]. *)
Definition image_event (ev : event) : bool :=
  match ev with
  | EvRun (_ :: sub :: _) _ => String.eqb sub "images" || String.eqb sub "rmi"
  | _ => false
  end.

(** Runs of [runtime image prune -f]. *)
Definition prune_event (ev : event) : bool :=
  match ev with
  | EvRun [_; a; b; c] _ => String.eqb a "image" && String.eqb b "prune" && String.eqb c "-f"
  | _ => false
  end.

(** Lines written by [print]. *)
Definition print_event (ev : event) : bool :=
  match ev with
  | EvPrint _ => true
  | _ => false
  end.

(** An event that the options allow: a report, or a call of one of the
    three engines whose option is set. *)
Definition gated (vargs : options) (ev : event) : Prop :=
  print_event ev = true ∨
  (file_event ev = true ∧ given (arg_file_pattern vargs) = true) ∨
  (image_event ev = true ∧ given (arg_remove_images vargs) = true) ∨
  (prune_event ev = true ∧ arg_image_prune vargs = true).

End Cleanup.

(** ** Worlds for concrete runs *)

(** A glob matcher for the examples: [*] stands for any run of characters
    other than the path separator, every other character for itself. *)
Fixpoint star_match (pattern path : string) : bool :=
  match pattern with
  | EmptyString => String.eqb path ""
  | String p pattern' =>
      if PyStr.eqc p "*"%char then
        (fix any (s : string) : bool :=
           star_match pattern' s ||
           match s with
           | EmptyString => false
           | String c s' => if PyStr.eqc c "/"%char then false else any s'
           end) path
      else
        match path with
        | String c path' => PyStr.eqc p c && star_match pattern' path'
        | EmptyString => false
        end
  end.

(** The value the examples give to [registry_auth_prefix]. *)
Definition example_prefix : string := "ansible_runner_registry_".

Definition line (s : string) : string := s +:+ String PyStr.newline EmptyString.

(** A private data directory with a pid file and artifacts. *)
Definition job_dir (pid_text : string) (idents : list string) : entry :=
  {| e_pid := Ok pid_text; e_artifacts := Ok idents; e_rmtree := None |}.

(** A directory with neither a pid file nor artifacts. *)
Definition plain_dir : entry :=
  {| e_pid := Raise FileNotFoundError;
     e_artifacts := Raise FileNotFoundError;
     e_rmtree := None |}.

(** Process 100 exists; no other process does. *)
Definition example_kill (pid : Z) : option exn :=
  if pid =? 100 then None else Some ProcessLookupError.

(** A runtime whose commands all succeed.  Listing [app] finds two
    references, listing anything else finds none; every [rmi] reports two
    untagged names; pruning reclaims nothing. *)
Definition example_output (cmd : list string) : string :=
  match cmd with
  | [_; sub; a; b] =>
      if String.eqb sub "images" then
        if String.eqb b "app" then
          line (String PyStr.dquote ("repo/app:latest" +:+ String PyStr.dquote EmptyString))
          +:+ line (String PyStr.dquote ("repo/app:v1" +:+ String PyStr.dquote EmptyString))
        else EmptyString
      else if String.eqb sub "rmi" then
        line ("Untagged: " +:+ a) +:+ line ("Untagged: localhost/" +:+ a)
        +:+ line "Deleted: 0123456789ab"
      else if String.eqb sub "image" then line "Total reclaimed space: 0B"
      else EmptyString
  | _ => EmptyString
  end.

Definition example_exec (_ : list event) (cmd : list string)
    : result (Z * option string) :=
  completed 0 (example_output cmd).

Definition example_world (fs : list (string * entry)) : world :=
  {| w_fs := list_to_map fs;
     w_fnmatch := star_match;
     w_kill := example_kill;
     w_exec := example_exec;
     w_trace := [] |}.

(** One job directory whose process, 100, is running. *)
Definition live_world : world :=
  example_world [("/tmp/run-A", job_dir (line "100") ["j1"])].

(** One job directory whose process, 200, is gone. *)
Definition dead_world : world :=
  example_world [("/tmp/run-B", job_dir (line "200") ["j2"])].

(** Both job directories, and a credential directory for each. *)
Definition demo_world : world :=
  example_world
    [("/tmp/run-A", job_dir (line "100") ["j1"]);
     ("/tmp/run-B", job_dir (line "200") ["j2"]);
     ("/tmp/ansible_runner_registry_j1_a", plain_dir);
     ("/tmp/ansible_runner_registry_j2_b", plain_dir)].

(** The options as the argument parser leaves them when none is given
    on the command line. *)
Definition no_options : options :=
  {| arg_file_pattern := None;
     arg_exclude_idents := None;
     arg_remove_images := None;
     arg_image_prune := false;
     arg_process_isolation_executable := "podman" |}.

(** [--file-pattern=/tmp/run-* --remove-images=app --image-prune] *)
Definition all_options : options :=
  {| arg_file_pattern := Some "/tmp/run-*";
     arg_exclude_idents := None;
     arg_remove_images := Some "app";
     arg_image_prune := true;
     arg_process_isolation_executable := "podman" |}.

(** A job directory whose pid file does not hold a number, and one
    without a pid file. *)
Definition odd_world : world :=
  example_world
    [("/tmp/run-C", job_dir (line "not a pid") ["j3"]);
     ("/tmp/run-D", plain_dir)].

(** A finished job without a pid file, whose identifier [job10] starts
    with the identifier [job1], and the credential directory of
    [job10]. *)
Definition prefix_world : world :=
  example_world
    [("/tmp/run-E",
      {| e_pid := Raise FileNotFoundError; e_artifacts := Ok ["job10"]; e_rmtree := None |});
     ("/tmp/ansible_runner_registry_job10_a", plain_dir)].

(** ** Vocabulary of the further properties *)

(** [sep.join(l)] *)
Fixpoint str_join (sep : string) (l : list string) : string :=
  match l with
  | [] => EmptyString
  | [x] => x
  | x :: l' => x +:+ sep +:+ str_join sep l'
  end.

(** The character [c] occurs in [s]. *)
Fixpoint has_char (c : ascii) (s : string) : bool :=
  match s with
  | EmptyString => false
  | String a s' => PyStr.eqc a c || has_char c s'
  end.

(** Number of occurrences of the character [c] in [s]. *)
Fixpoint count_char (c : ascii) (s : string) : nat :=
  match s with
  | EmptyString => 0
  | String a s' => (if PyStr.eqc a c then 1 else 0) + count_char c s'
  end.

(** Every character of [s] satisfies [p]. *)
Fixpoint all_chars (p : ascii → bool) (s : string) : bool :=
  match s with
  | EmptyString => true
  | String a s' => p a && all_chars p s'
  end.

(** Number of calls of [shutil.rmtree] in a piece of trace. *)
Definition count_rmtree (evs : list event) : Z :=
  Z.of_nat (length (filter (λ ev, is_rmtree ev = true) evs)).

(** Everything [cleanup_dirs] may do in the world [w]: its two globs, its
    reports, probing processes with signal 0, reading and removing
    directories that the pattern selects and the exclusion list lets
    through, and removing directories that the credential pattern
    selects. *)
Definition cleanup_event (registry_auth_prefix pattern : string)
    (exclude_idents : list string) (w : world) (ev : event) : Prop :=
  ev = EvGlob pattern ∨
  ev = EvGlob (registry_auth_pattern registry_auth_prefix) ∨
  (∃ m, ev = EvPrint m) ∨
  (∃ pid, ev = EvKill pid 0) ∨
  (∃ dir, dir ∈ matches pattern w ∧ excluded exclude_idents dir = false ∧
          (ev = EvOpen dir ∨ ev = EvListdir dir ∨ ev = EvRmtree dir)) ∨
  (∃ dir, dir ∈ matches (registry_auth_pattern registry_auth_prefix) w ∧
          ev = EvRmtree dir).

(** The file system of [w'] holds nothing that [w] does not hold. *)
Definition fs_sub (w w' : world) : Prop :=
  ∀ p x, w_fs w' !! p = Some x → w_fs w !! p = Some x.

(** What [run_command] leaves on the trace when a command fails: the run
    itself and the four lines that report it, latest first. *)
Definition failure_report (cmd : list string) (rc : Z) (out : string) : list event :=
  [EvPrint (MsgStdout out); EvPrint MsgStdoutHeader; EvPrint (MsgCommandLine cmd);
   EvPrint MsgErrorRunningCommand; EvRun cmd (completed rc out)].

(** The last thing that happened in [w'] is a command that exited with a
    status other than 0, and its report. *)
Definition failed_command (w' : world) : Prop :=
  ∃ cmd rc out rest,
    rc ≠ 0 ∧ w_trace w' = failure_report cmd rc out ++ rest ∧
    w_exec w' rest cmd = completed rc out.

(** The last thing that happened in [w'] is a call of [subprocess.run]
    that raised [e]: the program could not be started. *)
Definition failed_start (e : exn) (w' : world) : Prop :=
  ∃ cmd rest, w_trace w' = EvRun cmd (Raise e) :: rest ∧ w_exec w' rest cmd = Raise e.

(** The last thing that happened in [w'] is a command whose standard
    output does not decode as UTF-8. *)
Definition failed_decode (w' : world) : Prop :=
  ∃ cmd rc rest,
    w_trace w' = EvRun cmd (Ok (rc, None)) :: rest ∧ w_exec w' rest cmd = Ok (rc, None).

(** The three ways in which [run_command] raises [e] and leaves [w']. *)
Definition command_failure (e : exn) (w' : world) : Prop :=
  failed_start e w' ∨
  (e = UnicodeDecodeError ∧ failed_decode w') ∨
  (e = RuntimeError ∧ failed_command w').

(** Whenever [m] raises, the exception and the world satisfy [Q]. *)
Definition raises_with {A : Type} (Q : exn → world → Prop) (m : M A) : Prop :=
  ∀ w e w', m w = (Raise e, w') → Q e w'.

(** The command lines run in a piece of trace, earliest first. *)
Definition commands_of (evs : list event) : list (list string) :=
  omap (λ ev, match ev with EvRun cmd _ => Some cmd | _ => None end) (reverse evs).

(** The final line of [run_cleanup]. *)
Definition status_line (ev : event) : bool :=
  match ev with
  | EvPrint (MsgChanged _) => true
  | _ => false
  end.

(** A runtime that lists one reference for every tag and fails on
    [rmi]. *)
Definition broken_exec (_ : list event) (cmd : list string)
    : result (Z * option string) :=
  match cmd with
  | [_; sub; _; _] =>
      if String.eqb sub "rmi" then completed 125 "Error: image is in use by a container"
      else completed 0 "repo/app:latest"
  | _ => completed 0 EmptyString
  end.

Definition broken_world : world :=
  {| w_fs := ∅;
     w_fnmatch := star_match;
     w_kill := example_kill;
     w_exec := broken_exec;
     w_trace := [] |}.

(** No runtime is installed: the program cannot be started. *)
Definition no_runtime_world : world :=
  {| w_fs := ∅;
     w_fnmatch := star_match;
     w_kill := example_kill;
     w_exec := λ _ _, Raise FileNotFoundError;
     w_trace := [] |}.

(** A runtime that lists one reference and whose [rmi] writes bytes that
    are not UTF-8. *)
Definition garbled_world : world :=
  {| w_fs := ∅;
     w_fnmatch := star_match;
     w_kill := example_kill;
     w_exec := λ _ cmd, if is_rmi cmd then Ok (0, None) else completed 0 "repo/app:latest";
     w_trace := [] |}.

(** A regular file: nothing can be opened or listed beneath it. *)
Definition file_entry : entry :=
  {| e_pid := Raise NotADirectoryError;
     e_artifacts := Raise NotADirectoryError;
     e_rmtree := Some NotADirectoryError |}.

(** A regular file that the pattern of the examples selects. *)
Definition file_world : world :=
  example_world [("/tmp/run-F", file_entry)].

(** A runtime that answers every command with a blank line. *)
Definition blank_world : world :=
  {| w_fs := ∅;
     w_fnmatch := star_match;
     w_kill := example_kill;
     w_exec := λ _ _, completed 0 (line " ");
     w_trace := [] |}.

(** * Properties *)

(** ** Reasoning about the monad *)

Lemma bind_unfold {A B : Type} (m : M A) (f : A → M B) (w : world) :
  (m ≫= f) w =
  match m w with
  | (Ok a, w') => f a w'
  | (Raise e, w') => (Raise e, w')
  end.
Proof. reflexivity. Qed.

Lemma bind_ok {A B : Type} (m : M A) (f : A → M B) (w w' : world) (a : A) :
  m w = (Ok a, w') → (m ≫= f) w = f a w'.
Proof. intros H. rewrite bind_unfold, H. reflexivity. Qed.

Lemma bind_raise {A B : Type} (m : M A) (f : A → M B) (w w' : world) (e : exn) :
  m w = (Raise e, w') → (m ≫= f) w = (Raise e, w').
Proof. intros H. rewrite bind_unfold, H. reflexivity. Qed.

Lemma for_each_cons {A S : Type} (x : A) (l : list A) (body : A → S → M S) (s : S) :
  for_each (x :: l) body s = body x s ≫= for_each l body.
Proof. reflexivity. Qed.

(** ** What a computation leaves behind *)

Lemma frame_refl (P : event → Prop) (w : world) : frame P w w.
Proof. split; try reflexivity; auto. exists []. repeat split; auto. Qed.

Lemma frame_trans (P : event → Prop) (w1 w2 w3 : world) :
  frame P w1 w2 → frame P w2 w3 → frame P w1 w3.
Proof.
  intros [F1 K1 X1 (n1 & T1 & A1 & S1) G1] [F2 K2 X2 (n2 & T2 & A2 & S2) G2].
  split; try congruence; auto.
  exists (n2 ++ n1). split; [|split].
  - rewrite T2, T1, app_assoc. reflexivity.
  - apply Forall_app; auto.
  - intros p [H2 H1]%Forall_app. rewrite S2, S1; auto.
Qed.

Lemma frame_weaken (P Q : event → Prop) (w w' : world) :
  (∀ ev, P ev → Q ev) → frame P w w' → frame Q w w'.
Proof.
  intros HPQ [F K X (n & T & A & S) G]. split; auto.
  exists n. repeat split; auto. eapply Forall_impl; eauto.
Qed.

Lemma frame_log (P : event → Prop) (ev : event) (w : world) :
  P ev → frame P w (log ev w).
Proof.
  intros HP. split; try reflexivity; auto.
  exists [ev]. repeat split; auto.
Qed.

Lemma frame_fs (P : event → Prop) (w w' : world) :
  frame P w w' → (∀ ev, P ev → is_rmtree ev = false) → w_fs w' = w_fs w.
Proof.
  intros [_ _ _ (n & T & A & S) _] HP. apply map_eq. intros p. apply S.
  eapply Forall_impl; [exact A|]. intros ev Hev d ->.
  apply HP in Hev. discriminate.
Qed.

Lemma emits_weaken {A : Type} (P Q : event → Prop) (m : M A) :
  (∀ ev, P ev → Q ev) → emits P m → emits Q m.
Proof. intros HPQ H w. eapply frame_weaken; eauto. Qed.

Lemma emits_mret {A : Type} (P : event → Prop) (a : A) : emits P (mret a).
Proof. intros w. apply frame_refl. Qed.

Lemma emits_raise {A : Type} (P : event → Prop) (e : exn) : emits P (@raise A e).
Proof. intros w. apply frame_refl. Qed.

Lemma emits_bind {A B : Type} (P : event → Prop) (m : M A) (f : A → M B) :
  emits P m → (∀ a, emits P (f a)) → emits P (m ≫= f).
Proof.
  intros Hm Hf w. rewrite bind_unfold.
  specialize (Hm w). destruct (m w) as [[a|e] w1]; simpl in *; [|exact Hm].
  eapply frame_trans; [exact Hm|]. apply Hf.
Qed.

Lemma emits_try_except {A : Type} (P : event → Prop) (m h : M A) (handles : exn → bool) :
  emits P m → emits P h → emits P (try_except m handles h).
Proof.
  intros Hm Hh w. unfold try_except.
  specialize (Hm w). destruct (m w) as [[a|e] w1]; simpl in *; [exact Hm|].
  destruct (handles e); [|exact Hm].
  eapply frame_trans; [exact Hm|]. apply Hh.
Qed.

Lemma emits_for_each {A S : Type} (P : event → Prop) (l : list A) (body : A → S → M S) :
  (∀ x s, x ∈ l → emits P (body x s)) → ∀ s, emits P (for_each l body s).
Proof.
  induction l as [|x l IH]; intros Hb s.
  - apply emits_mret.
  - rewrite for_each_cons. apply emits_bind.
    + apply Hb. left.
    + intros s'. apply IH. intros y t Hy. apply Hb. right. exact Hy.
Qed.

Lemma emits_if {A : Type} (P : event → Prop) (b : bool) (m1 m2 : M A) :
  emits P m1 → emits P m2 → emits P (if b then m1 else m2).
Proof. destruct b; auto. Qed.

Lemma emits_print (P : event → Prop) (m : message) : P (EvPrint m) → emits P (print m).
Proof. intros H w. apply frame_log; auto. Qed.

Lemma emits_iglob (P : event → Prop) (pattern : string) :
  P (EvGlob pattern) → emits P (iglob pattern).
Proof. intros H w. apply frame_log; auto. Qed.

Lemma emits_open_pid (P : event → Prop) (dir : string) :
  P (EvOpen dir) → emits P (open_pid dir).
Proof. intros H w. apply frame_log; auto. Qed.

Lemma emits_listdir_artifacts (P : event → Prop) (dir : string) :
  P (EvListdir dir) → emits P (listdir_artifacts dir).
Proof. intros H w. apply frame_log; auto. Qed.

Lemma emits_os_kill (P : event → Prop) (pid sig : Z) :
  P (EvKill pid sig) → emits P (os_kill pid sig).
Proof. intros H w. apply frame_log; auto. Qed.

Lemma emits_rmtree (P : event → Prop) (dir : string) :
  P (EvRmtree dir) → emits P (rmtree dir).
Proof.
  intros H w. unfold rmtree.
  destruct (e_rmtree (lookup_entry dir w)); simpl;
    (split; try reflexivity; auto; [exists [EvRmtree dir]; repeat split; auto|..]).
  - intros p Hp. inversion Hp as [|? ? Hd _]; subst.
    specialize (Hd dir eq_refl). simpl.
    destruct (w_fs w !! p) as [x|] eqn:E.
    + apply map_lookup_filter_Some_2; auto.
    + apply map_lookup_filter_None_2. left. exact E.
  - intros p Hp. simpl. apply map_lookup_filter_None_2. left. exact Hp.
Qed.

Lemma emits_subprocess_run (P : event → Prop) (cmd : list string) :
  (∀ outcome, P (EvRun cmd outcome)) → emits P (subprocess_run cmd).
Proof. intros H w. unfold subprocess_run. apply frame_log; auto. Qed.

Lemma emits_decode_utf8 (P : event → Prop) (b : option string) : emits P (decode_utf8 b).
Proof. destruct b; [apply emits_mret|apply emits_raise]. Qed.

Lemma emits_run_command (P : event → Prop) (cmd : list string) :
  (∀ outcome, P (EvRun cmd outcome)) → (∀ m, P (EvPrint m)) → emits P (run_command cmd).
Proof.
  intros Hr Hp. unfold run_command. apply emits_bind.
  - apply emits_subprocess_run, Hr.
  - intros [rc b]. apply emits_bind; [apply emits_decode_utf8|]. intros out.
    apply emits_if.
    + repeat (apply emits_bind; [apply emits_print, Hp | intros _]).
      apply emits_raise.
    + apply emits_mret.
Qed.

Lemma emits_is_alive (P : event → Prop) (dir : string) :
  P (EvOpen dir) → (∀ pid, P (EvKill pid SIG_DFL)) → emits P (is_alive dir).
Proof.
  intros Ho Hk. unfold is_alive. apply emits_bind.
  - apply emits_try_except; [|apply emits_mret].
    apply emits_bind; [apply emits_open_pid, Ho|].
    intros text. destruct (PyStr.int _); [apply emits_mret|apply emits_raise].
  - intros [pid|]; [|apply emits_mret].
    apply emits_try_except; [|apply emits_mret].
    apply emits_bind; [apply emits_os_kill, Hk|]. intros _. apply emits_mret.
Qed.

Lemma emits_get_idents (P : event → Prop) (dir : string) :
  P (EvListdir dir) → emits P (_get_idents_from_pdd dir).
Proof.
  intros H. unfold _get_idents_from_pdd.
  apply emits_try_except; [apply emits_listdir_artifacts, H|apply emits_mret].
Qed.

Lemma rmtree_removes (dir : string) (w : world) :
  e_rmtree (lookup_entry dir w) = None →
  ∃ w', rmtree dir w = (Ok tt, w') ∧ w_fs w' !! dir = None ∧
        w_trace w' = EvRmtree dir :: w_trace w.
Proof.
  intros H. unfold rmtree. rewrite H. eexists. split; [reflexivity|]. split; [|reflexivity].
  simpl. apply map_lookup_filter_None_2. right. intros x _. simpl.
  unfold beneath. rewrite String.eqb_refl. discriminate.
Qed.

(** ** The liveness check *)

Lemma open_pid_eq (dir : string) (w : world) :
  open_pid dir w = (e_pid (lookup_entry dir w), log (EvOpen dir) w).
Proof. reflexivity. Qed.

(** No pid file that can be opened: [return False]. *)
Lemma is_alive_no_pidfile (dir : string) (w : world) (e : exn) :
  e_pid (lookup_entry dir w) = Raise e → is_OSError e = true →
  is_alive dir w = (Ok (PyBool false), log (EvOpen dir) w).
Proof.
  intros He Hos. unfold is_alive, try_except.
  rewrite !bind_unfold, open_pid_eq, He, Hos. reflexivity.
Qed.

(** Any other exception while reading the pid file is not caught. *)
Lemma is_alive_read_error (dir : string) (w : world) (e : exn) :
  e_pid (lookup_entry dir w) = Raise e → is_OSError e = false →
  is_alive dir w = (Raise e, log (EvOpen dir) w).
Proof.
  intros He Hos. unfold is_alive, try_except.
  rewrite !bind_unfold, open_pid_eq, He, Hos. reflexivity.
Qed.

(** A first line that is not an integer: [int] raises [ValueError], which
    [except IOError] does not catch. *)
Lemma is_alive_malformed (dir : string) (w : world) (text : string) :
  e_pid (lookup_entry dir w) = Ok text →
  PyStr.int (PyStr.readline text) = None →
  is_alive dir w = (Raise ValueError, log (EvOpen dir) w).
Proof.
  intros He Hint. unfold is_alive, try_except.
  rewrite !bind_unfold, open_pid_eq, He, Hint. reflexivity.
Qed.

(** The signal can be sent, so the process exists: [return(0)]. *)
Lemma is_alive_signal_sent (dir : string) (w : world) (text : string) (pid : Z) :
  e_pid (lookup_entry dir w) = Ok text →
  PyStr.int (PyStr.readline text) = Some pid →
  w_kill w pid = None →
  is_alive dir w = (Ok (PyInt 0), log (EvKill pid SIG_DFL) (log (EvOpen dir) w)).
Proof.
  intros He Hint Hk. unfold is_alive, try_except, os_kill.
  rewrite !bind_unfold, open_pid_eq, He, Hint. simpl.
  rewrite !bind_unfold. simpl. rewrite Hk. reflexivity.
Qed.

(** [os.kill] raises an [OSError], so the process is gone or belongs to
    someone else: [return(1)]. *)
Lemma is_alive_signal_refused (dir : string) (w : world) (text : string) (pid : Z) (e : exn) :
  e_pid (lookup_entry dir w) = Ok text →
  PyStr.int (PyStr.readline text) = Some pid →
  w_kill w pid = Some e → is_OSError e = true →
  is_alive dir w = (Ok (PyInt 1), log (EvKill pid SIG_DFL) (log (EvOpen dir) w)).
Proof.
  intros He Hint Hk Hos. unfold is_alive, try_except, os_kill.
  rewrite !bind_unfold, open_pid_eq, He, Hint. simpl.
  rewrite !bind_unfold. simpl. rewrite Hk, Hos. reflexivity.
Qed.

(** ** The loop over the private data directories *)

Lemma elem_of_matches (pattern : string) (w : world) (p : string) :
  p ∈ matches pattern w ↔ w_fnmatch w pattern p = true ∧ is_Some (w_fs w !! p).
Proof.
  unfold matches. rewrite list_elem_of_filter, list_elem_of_fmap.
  split.
  - intros [Hm ([q x] & -> & Hin)]. split; [exact Hm|].
    apply elem_of_map_to_list in Hin. eauto.
  - intros [Hm [x Hx]]. split; [exact Hm|].
    exists (p, x). split; [reflexivity|]. apply elem_of_map_to_list. exact Hx.
Qed.

Lemma scan_dir_excluded (exclude_idents : list string) (dir : string) (s : scan) (w : world) :
  excluded exclude_idents dir = true → scan_dir exclude_idents dir s w = (Ok s, w).
Proof. unfold scan_dir, excluded. intros ->. reflexivity. Qed.

Lemma scan_dir_not_excluded (exclude_idents : list string) (dir : string) (s : scan) :
  excluded exclude_idents dir = false →
  scan_dir exclude_idents dir s =
    (dir_idents ← _get_idents_from_pdd dir;
     alive ← is_alive dir;
     if truthy alive then
       mret {| ct := ct s;
               running_idents := running_idents s ++ dir_idents;
               deleted_idents := deleted_idents s |}
     else
       _ ← rmtree dir;
       mret {| ct := ct s + 1;
               running_idents := running_idents s;
               deleted_idents := deleted_idents s ++ dir_idents |}).
Proof. unfold scan_dir, excluded. intros ->. reflexivity. Qed.

Lemma emits_scan_dir (P : event → Prop) (exclude_idents : list string) (dir : string) (s : scan) :
  (excluded exclude_idents dir = false →
   P (EvOpen dir) ∧ P (EvListdir dir) ∧ P (EvRmtree dir)) →
  (∀ pid, P (EvKill pid SIG_DFL)) →
  emits P (scan_dir exclude_idents dir s).
Proof.
  intros Hd Hk. destruct (excluded exclude_idents dir) eqn:E.
  - intros w. rewrite scan_dir_excluded by exact E. apply frame_refl.
  - destruct (Hd eq_refl) as (Ho & Hl & Hr).
    rewrite scan_dir_not_excluded by exact E.
    apply emits_bind; [apply emits_get_idents, Hl|]. intros ids.
    apply emits_bind; [apply emits_is_alive; auto|]. intros alive.
    apply emits_if; [apply emits_mret|].
    apply emits_bind; [apply emits_rmtree, Hr|]. intros _. apply emits_mret.
Qed.

Lemma cleanup_dirs_scan_frame (pattern : string) (exclude_idents : list string) (w : world) :
  frame (scan_event pattern exclude_idents w) w (cleanup_dirs_scan pattern exclude_idents w).2.
Proof.
  unfold cleanup_dirs_scan. rewrite bind_unfold. simpl.
  eapply frame_trans.
  - apply (frame_log _ (EvGlob pattern) w). left. reflexivity.
  - apply emits_for_each. intros dir s Hdir. apply emits_scan_dir.
    + intros E. repeat split; right; right; exists dir; auto.
    + intros pid. right. left. eauto.
Qed.

Lemma frame_not_in (P : event → Prop) (w w' : world) :
  frame P w w' → ∃ new, w_trace w' = new ++ w_trace w ∧ ∀ ev, ev ∈ new → P ev.
Proof.
  intros [_ _ _ (new & T & A & _) _]. exists new. split; [exact T|].
  intros ev Hev. rewrite Forall_forall in A. auto.
Qed.

Section Properties.

Variable registry_auth_prefix : string.

Local Abbreviation auth_pattern := (registry_auth_pattern registry_auth_prefix).
Local Abbreviation ident_of := (ident_re_match registry_auth_prefix).

(** ** The loop over the registry credential directories *)

Lemma auth_dir_removable (exclude_idents : list string) (s : scan) (dir ident : string) :
  ident_of dir = Some ident → removable exclude_idents s ident →
  auth_dir registry_auth_prefix exclude_idents (running_idents s) (deleted_idents s) dir tt =
  (_ ← rmtree dir; print (MsgRemovedAuthDir dir)).
Proof.
  intros Hid (Hd & He & Hr). unfold auth_dir, mem. rewrite Hid.
  rewrite (bool_decide_eq_false_2 _ He), (bool_decide_eq_false_2 _ Hr),
    (bool_decide_eq_true_2 _ Hd).
  reflexivity.
Qed.

Lemma auth_dir_not_removable (exclude_idents : list string) (s : scan) (dir ident : string) :
  ident_of dir = Some ident → ¬ removable exclude_idents s ident →
  auth_dir registry_auth_prefix exclude_idents (running_idents s) (deleted_idents s) dir tt =
  mret tt.
Proof.
  intros Hid Hn. unfold auth_dir, mem. rewrite Hid.
  destruct (bool_decide (ident ∈ exclude_idents)) eqn:E1; [reflexivity|].
  destruct (bool_decide (ident ∈ running_idents s)) eqn:E2; [reflexivity|].
  destruct (bool_decide (ident ∈ deleted_idents s)) eqn:E3; [|reflexivity].
  exfalso. apply Hn. repeat split.
  - by apply bool_decide_eq_true in E3.
  - by apply bool_decide_eq_false in E1.
  - by apply bool_decide_eq_false in E2.
Qed.

Lemma auth_dir_no_match (exclude_idents running deleted : list string) (dir : string) (w : world) :
  ident_of dir = None →
  auth_dir registry_auth_prefix exclude_idents running deleted dir tt w = (Raise AttributeError, w).
Proof. intros Hid. unfold auth_dir. rewrite Hid. reflexivity. Qed.

Lemma removable_dec (exclude_idents : list string) (s : scan) (ident : string) :
  removable exclude_idents s ident ∨ ¬ removable exclude_idents s ident.
Proof.
  unfold removable.
  destruct (decide (ident ∈ deleted_idents s)); [|tauto].
  destruct (decide (ident ∈ exclude_idents)); [tauto|].
  destruct (decide (ident ∈ running_idents s)); tauto.
Qed.

Lemma emits_auth_dir (exclude_idents : list string) (s : scan) (dirs : list string) (dir : string) :
  dir ∈ dirs →
  emits (auth_event registry_auth_prefix exclude_idents s dirs)
    (auth_dir registry_auth_prefix exclude_idents (running_idents s) (deleted_idents s) dir tt).
Proof.
  intros Hin. destruct (ident_of dir) as [ident|] eqn:Hid.
  - destruct (removable_dec exclude_idents s ident) as [Hr|Hr].
    + rewrite (auth_dir_removable _ _ _ _ Hid Hr).
      apply emits_bind.
      * apply emits_rmtree. right. eauto 6.
      * intros _. apply emits_print. left. eauto.
    + rewrite (auth_dir_not_removable _ _ _ _ Hid Hr). apply emits_mret.
  - intros w. rewrite auth_dir_no_match by exact Hid. apply frame_refl.
Qed.

Lemma emits_auth_loop (exclude_idents : list string) (s : scan) (dirs : list string) :
  emits (auth_event registry_auth_prefix exclude_idents s dirs)
    (for_each dirs
       (auth_dir registry_auth_prefix exclude_idents (running_idents s) (deleted_idents s)) tt).
Proof.
  apply emits_for_each. intros dir [] Hin. apply emits_auth_dir, Hin.
Qed.

(** If the loop runs to its end, every selected directory whose identifier
    is removable has been given to [rmtree]. *)
Lemma auth_loop_complete (exclude_idents : list string) (s : scan) (dirs : list string)
    (w w' : world) :
  for_each dirs
    (auth_dir registry_auth_prefix exclude_idents (running_idents s) (deleted_idents s)) tt w
  = (Ok tt, w') →
  ∃ new, w_trace w' = new ++ w_trace w ∧
    ∀ dir ident, dir ∈ dirs → ident_of dir = Some ident →
      removable exclude_idents s ident → EvRmtree dir ∈ new.
Proof.
  revert w. induction dirs as [|d dirs IH]; intros w H.
  - exists []. split; [by inversion H|]. intros dir ident Hin. inversion Hin.
  - rewrite for_each_cons, bind_unfold in H.
    destruct (auth_dir _ _ _ _ d tt w) as [[[]|e] w1] eqn:Hd; [|discriminate].
    destruct (IH _ H) as (new2 & T2 & C2).
    pose proof (emits_auth_dir exclude_idents s [d] d ltac:(left) w) as F.
    rewrite Hd in F. simpl in F. destruct F as [_ _ _ (new1 & T1 & _ & _) _].
    exists (new2 ++ new1). split; [rewrite T2, T1, app_assoc; reflexivity|].
    intros dir ident Hin Hid Hr. apply elem_of_app.
    apply elem_of_cons in Hin as [->|Hin]; [right|left; eauto].
    rewrite (auth_dir_removable _ _ _ _ Hid Hr) in Hd.
    unfold rmtree, print in Hd. rewrite bind_unfold in Hd.
    destruct (e_rmtree (lookup_entry d w)); [discriminate|].
    inversion Hd; subst w1. simpl in T1.
    change (EvPrint (MsgRemovedAuthDir d) :: EvRmtree d :: w_trace w)
      with ([EvPrint (MsgRemovedAuthDir d); EvRmtree d] ++ w_trace w) in T1.
    apply app_inv_tail in T1. subst new1. right. left.
Qed.

(** And it is gone from the file system. *)
Lemma auth_loop_gone (exclude_idents : list string) (s : scan) (dirs : list string)
    (w w' : world) :
  for_each dirs
    (auth_dir registry_auth_prefix exclude_idents (running_idents s) (deleted_idents s)) tt w
  = (Ok tt, w') →
  ∀ dir ident, dir ∈ dirs → ident_of dir = Some ident →
    removable exclude_idents s ident → w_fs w' !! dir = None.
Proof.
  revert w. induction dirs as [|d dirs IH]; intros w H dir ident Hin Hid Hr.
  - inversion Hin.
  - rewrite for_each_cons, bind_unfold in H.
    destruct (auth_dir _ _ _ _ d tt w) as [[[]|e] w1] eqn:Hd; [|discriminate].
    apply elem_of_cons in Hin as [->|Hin]; [|eauto].
    rewrite (auth_dir_removable _ _ _ _ Hid Hr) in Hd.
    rewrite bind_unfold in Hd.
    destruct (e_rmtree (lookup_entry d w)) as [e|] eqn:Hrm.
    + unfold rmtree in Hd. rewrite Hrm in Hd. discriminate.
    + destruct (rmtree_removes d w Hrm) as (w2 & E2 & G2 & _).
      rewrite E2 in Hd. unfold print in Hd. inversion Hd; subst w1.
      pose proof (emits_auth_loop exclude_idents s dirs (log (EvPrint (MsgRemovedAuthDir d)) w2))
        as F.
      rewrite H in F. simpl in F. apply (frame_gone _ _ _ F). exact G2.
Qed.

Lemma matches_log (pattern : string) (ev : event) (w : world) :
  matches pattern (log ev w) = matches pattern w.
Proof. reflexivity. Qed.

(** [cleanup_dirs_auth] prints its reports, lists the credential
    directories and runs the second loop. *)
Lemma cleanup_dirs_auth_loop (pattern : string) (exclude_idents : list string) (s : scan) (w : world) :
  ∃ w2, frame (λ ev, (∃ m, ev = EvPrint m) ∨ ev = EvGlob auth_pattern) w w2 ∧
        matches auth_pattern w2 = matches auth_pattern w ∧
        cleanup_dirs_auth registry_auth_prefix pattern exclude_idents s w =
        (_ ← for_each (matches auth_pattern w)
               (auth_dir registry_auth_prefix exclude_idents
                  (running_idents s) (deleted_idents s)) tt;
         mret (ct s)) w2.
Proof.
  unfold cleanup_dirs_auth.
  set (p1 := if negb (ct s =? 0) then print (MsgRemovedDirs (ct s) pattern) else mret tt).
  set (p2 := if negb (bool_decide (running_idents s = []))
             then print (MsgRunningJobs (running_idents s)) else mret tt).
  assert (H1 : ∃ w1, p1 w = (Ok tt, w1) ∧ matches auth_pattern w1 = matches auth_pattern w ∧
               frame (λ ev, (∃ m, ev = EvPrint m) ∨ ev = EvGlob auth_pattern) w w1).
  { subst p1. destruct (negb (ct s =? 0)).
    - exists (log (EvPrint (MsgRemovedDirs (ct s) pattern)) w).
      split; [reflexivity|]. split; [reflexivity|]. apply frame_log. left. eauto.
    - exists w. split; [reflexivity|]. split; [reflexivity|]. apply frame_refl. }
  destruct H1 as (w1 & E1 & M1 & F1).
  assert (H2 : ∃ w2, p2 w1 = (Ok tt, w2) ∧ matches auth_pattern w2 = matches auth_pattern w1 ∧
               frame (λ ev, (∃ m, ev = EvPrint m) ∨ ev = EvGlob auth_pattern) w1 w2).
  { subst p2. destruct (negb (bool_decide (running_idents s = []))).
    - exists (log (EvPrint (MsgRunningJobs (running_idents s))) w1).
      split; [reflexivity|]. split; [reflexivity|]. apply frame_log. left. eauto.
    - exists w1. split; [reflexivity|]. split; [reflexivity|]. apply frame_refl. }
  destruct H2 as (w2 & E2 & M2 & F2).
  exists (log (EvGlob auth_pattern) w2). split; [|split].
  - eapply frame_trans; [exact F1|]. eapply frame_trans; [exact F2|].
    apply frame_log. right. reflexivity.
  - rewrite matches_log. congruence.
  - rewrite (bind_ok _ _ _ _ _ E1), (bind_ok _ _ _ _ _ E2).
    unfold iglob. rewrite bind_unfold. rewrite M2, M1. reflexivity.
Qed.

(** C3.  In the second pass of [cleanup_dirs], a credential directory whose
    name embeds the identifier [ident] is removed if and only if [ident] is
    among the identifiers of the directories deleted in this run, is not in
    the exclusion list, and is not among the identifiers collected as
    running.  Here [s] holds the sets the first pass has built and [new]
    is what the second pass does.  Only if: a call of [rmtree] on the
    directory implies the three conditions and, credential directories not
    lying inside one another, without them the directory stays as it was.
    If: when the pass runs to its end, the three conditions imply that
    [rmtree] was called on the directory and that it is gone. *)
Theorem credential_dir_removed_iff (pattern : string) (exclude_idents : list string)
    (w w1 : world) (s : scan) :
  cleanup_dirs_scan pattern exclude_idents w = (Ok s, w1) →
  ∃ new,
    w_trace (cleanup_dirs registry_auth_prefix pattern exclude_idents w).2
      = new ++ w_trace w1 ∧
    ∀ dir ident,
      dir ∈ matches auth_pattern w1 → ident_of dir = Some ident →
      (EvRmtree dir ∈ new →
       ident ∈ deleted_idents s ∧ (ident ∉ exclude_idents) ∧ (ident ∉ running_idents s)) ∧
      ((∀ d, d ∈ matches auth_pattern w1 → beneath d dir = true → d = dir) →
       ¬ (ident ∈ deleted_idents s ∧ (ident ∉ exclude_idents) ∧ (ident ∉ running_idents s)) →
       w_fs (cleanup_dirs registry_auth_prefix pattern exclude_idents w).2 !! dir
         = w_fs w1 !! dir) ∧
      (returned (cleanup_dirs registry_auth_prefix pattern exclude_idents w).1 →
       ident ∈ deleted_idents s ∧ (ident ∉ exclude_idents) ∧ (ident ∉ running_idents s) →
       EvRmtree dir ∈ new ∧
       w_fs (cleanup_dirs registry_auth_prefix pattern exclude_idents w).2 !! dir = None).
Proof.
  intros Hscan. unfold cleanup_dirs. rewrite (bind_ok _ _ _ _ _ Hscan).
  destruct (cleanup_dirs_auth_loop pattern exclude_idents s w1) as (w2 & F2 & M2 & ->).
  rewrite bind_unfold.
  pose proof (emits_auth_loop exclude_idents s (matches auth_pattern w1) w2) as F3.
  set (Q := λ ev, ev = EvGlob auth_pattern ∨
                  auth_event registry_auth_prefix exclude_idents s
                    (matches auth_pattern w1) ev).
  assert (HQ : ∀ dir ident ev,
            ident_of dir = Some ident → Q ev → ev = EvRmtree dir →
            removable exclude_idents s ident).
  { intros dir ident ev Hid [->|[[m ->]|(d & i & -> & _ & Hi & Hr)]] Heq;
      try discriminate.
    injection Heq as ->. rewrite Hid in Hi. injection Hi as <-. exact Hr. }
  assert (HQflat : ∀ dir ident ev,
            ident_of dir = Some ident →
            (∀ d, d ∈ matches auth_pattern w1 → beneath d dir = true → d = dir) →
            ¬ removable exclude_idents s ident → Q ev → spares dir ev).
  { intros dir ident ev Hid Hflat Hn [->|[[m ->]|(d & i & -> & Hd & Hi & Hr)]] d' Heq;
      try discriminate.
    injection Heq as <-. destruct (beneath d dir) eqn:B; [|reflexivity].
    apply Hflat in B; [|exact Hd]. subst d. rewrite Hid in Hi. injection Hi as <-.
    contradiction. }
  assert (F23 : frame Q w1
                  (match for_each (matches auth_pattern w1)
                           (auth_dir registry_auth_prefix exclude_idents
                              (running_idents s) (deleted_idents s)) tt w2 with
                   | (Ok a, w') => (Ok (ct s), w')
                   | (Raise e, w') => (@Raise Z e, w')
                   end).2).
  { eapply frame_trans.
    - eapply frame_weaken; [|exact F2]. intros ev [[m ->]| ->]; [right; left; eauto|by left].
    - eapply frame_weaken; [|].
      + intros ev Hev. right. exact Hev.
      + destruct (for_each _ _ tt w2) as [[[]|e] w3]; exact F3. }
  destruct (for_each _ _ tt w2) as [[[]|e] w3] eqn:Hloop; simpl in F3, F23 |- *.
  - destruct F23 as [_ _ _ (new & T & A & S) _]. exists new. split; [exact T|].
    rewrite Forall_forall in A.
    intros dir ident Hin Hid. split; [|split].
    + intros Hev. exact (HQ dir ident _ Hid (A _ Hev) eq_refl).
    + intros Hflat Hn. apply S. apply Forall_forall. intros ev Hev.
      exact (HQflat dir ident ev Hid Hflat Hn (A _ Hev)).
    + intros _ Hr. split.
      * destruct (auth_loop_complete _ _ _ _ _ Hloop) as (new3 & T3 & C3).
        destruct F2 as [_ _ _ (new2 & T2 & _ & _) _].
        assert (new = new3 ++ new2).
        { rewrite T3, T2, app_assoc in T. by apply app_inv_tail in T. }
        subst new. apply elem_of_app. left. eapply C3; eauto.
      * eapply auth_loop_gone; eauto.
  - destruct F23 as [_ _ _ (new & T & A & S) _]. exists new. split; [exact T|].
    rewrite Forall_forall in A.
    intros dir ident Hin Hid. split; [|split].
    + intros Hev. exact (HQ dir ident _ Hid (A _ Hev) eq_refl).
    + intros Hflat Hn. apply S. apply Forall_forall. intros ev Hev.
      exact (HQflat dir ident ev Hid Hflat Hn (A _ Hev)).
    + intros [a Ha]. discriminate.
Qed.

(** ** Excluded directories *)

Lemma contains_empty (s : string) : PyStr.contains "" s = true.
Proof. destruct s; reflexivity. Qed.

Lemma excluded_empty_ident (exclude_idents : list string) (dir : string) :
  "" ∈ exclude_idents → excluded exclude_idents dir = true.
Proof.
  intros H. unfold excluded. apply existsb_exists. exists "".
  split; [by apply list_elem_of_In|apply contains_empty].
Qed.

Lemma for_each_skip {A S : Type} (l : list A) (body : A → S → M S) (s : S) (w : world) :
  (∀ x, x ∈ l → body x s w = (Ok s, w)) → for_each l body s w = (Ok s, w).
Proof.
  induction l as [|x l IH]; intros H; [reflexivity|].
  rewrite for_each_cons, (bind_ok _ _ _ _ _ (H x ltac:(left))).
  apply IH. intros y Hy. apply H. by right.
Qed.

(** C4, amended.  A directory whose path contains an excluded identifier
    as a substring is skipped by the first loop: the loop body returns at
    once with its variables and the world unchanged, so that this loop
    neither opens its pid file, nor lists its artifacts, nor removes it,
    whatever the state of its process, and it keeps its place in the file
    system when no other selected path lies above it.  All of
    [cleanup_dirs] never inspects it.  The second loop, however, removes
    it when it is a registry credential directory whose identifier is
    among the deleted ones, is not an element of the exclusion list, and
    is not among the running ones; [cleanup_dirs] removes it in no other
    case. *)
Theorem excluded_dir_is_skipped (pattern : string) (exclude_idents : list string)
    (dir : string) (w : world) :
  excluded exclude_idents dir = true →
  (∀ s w0, scan_dir exclude_idents dir s w0 = (Ok s, w0)) ∧
  (∃ new, w_trace (cleanup_dirs_scan pattern exclude_idents w).2 = new ++ w_trace w ∧
          (EvOpen dir ∉ new) ∧ (EvListdir dir ∉ new) ∧ (EvRmtree dir ∉ new)) ∧
  ((∀ d, d ∈ matches pattern w → beneath d dir = true → d = dir) →
   w_fs (cleanup_dirs_scan pattern exclude_idents w).2 !! dir = w_fs w !! dir) ∧
  (∃ new, w_trace (cleanup_dirs registry_auth_prefix pattern exclude_idents w).2
            = new ++ w_trace w ∧
          (EvOpen dir ∉ new) ∧ (EvListdir dir ∉ new) ∧
          (EvRmtree dir ∈ new →
           ∃ s w1 ident,
             cleanup_dirs_scan pattern exclude_idents w = (Ok s, w1) ∧
             dir ∈ matches auth_pattern w1 ∧ ident_of dir = Some ident ∧
             ident ∈ deleted_idents s ∧ (ident ∉ exclude_idents) ∧
             (ident ∉ running_idents s))).
Proof.
  intros Hex.
  assert (Hscan : ∀ ev, scan_event pattern exclude_idents w ev →
            ev ≠ EvOpen dir ∧ ev ≠ EvListdir dir ∧ ev ≠ EvRmtree dir).
  { intros ev [->|[[pid ->]|(d & _ & Hd & [->|[->| ->]])]]; repeat split;
      try discriminate; intros [= ->]; congruence. }
  pose proof (cleanup_dirs_scan_frame pattern exclude_idents w) as F.
  split; [|split; [|split]].
  - intros s w0. by apply scan_dir_excluded.
  - destruct (frame_not_in _ _ _ F) as (new & T & A). exists new.
    split; [exact T|].
    repeat split; intros Hin; apply A, Hscan in Hin; tauto.
  - intros Hflat. destruct F as [_ _ _ (new & T & A & S) _]. apply S.
    eapply Forall_impl; [exact A|]. intros ev Hev d ->.
    destruct Hev as [?|[[pid ?]|(d' & Hm & Hd & [?|[?|Heq]])]]; try discriminate.
    injection Heq as <-.
    destruct (beneath d dir) eqn:B; [|reflexivity].
    apply Hflat in B; [|exact Hm]. congruence.
  - unfold cleanup_dirs. rewrite bind_unfold.
    destruct (cleanup_dirs_scan pattern exclude_idents w) as [[s|e] w1] eqn:E; simpl in F.
    + destruct (cleanup_dirs_auth_loop pattern exclude_idents s w1) as (w2 & F2 & M2 & ->).
      pose proof (emits_auth_loop exclude_idents s (matches auth_pattern w1) w2) as F3.
      rewrite bind_unfold.
      destruct F as [Fm _ _ (new1 & T1 & A1 & _) _].
      destruct F2 as [_ _ _ (new2 & T2 & A2 & _) _].
      assert (Hall : ∀ new3,
                Forall (auth_event registry_auth_prefix exclude_idents s (matches auth_pattern w1)) new3 →
                (EvOpen dir ∉ new3 ++ new2 ++ new1) ∧ (EvListdir dir ∉ new3 ++ new2 ++ new1) ∧
                (EvRmtree dir ∈ new3 ++ new2 ++ new1 →
                 ∃ s0 w0 ident,
                   (Ok s, w1) = (Ok s0, w0) ∧
                   dir ∈ matches auth_pattern w0 ∧ ident_of dir = Some ident ∧
                   ident ∈ deleted_idents s0 ∧ (ident ∉ exclude_idents) ∧
                   (ident ∉ running_idents s0))).
      { intros new3 A3. rewrite Forall_forall in A1, A2, A3.
        repeat split.
        - intros [H|[H|H]%elem_of_app]%elem_of_app.
          + destruct (A3 _ H) as [[m ?]|(d & i & ? & _)]; discriminate.
          + destruct (A2 _ H) as [[m ?]|?]; discriminate.
          + apply A1, Hscan in H. tauto.
        - intros [H|[H|H]%elem_of_app]%elem_of_app.
          + destruct (A3 _ H) as [[m ?]|(d & i & ? & _)]; discriminate.
          + destruct (A2 _ H) as [[m ?]|?]; discriminate.
          + apply A1, Hscan in H. tauto.
        - intros [H|[H|H]%elem_of_app]%elem_of_app.
          + destruct (A3 _ H) as [[m ?]|(d & i & Heq & Hd & Hi & Hr)]; [discriminate|].
            injection Heq as <-. exists s, w1, i. destruct Hr as (Hr1 & Hr2 & Hr3).
            repeat split; assumption.
          + destruct (A2 _ H) as [[m ?]|?]; discriminate.
          + apply A1, Hscan in H. tauto. }
      destruct (for_each _ _ tt w2) as [[[]|e] w3]; simpl in F3 |- *;
        destruct F3 as [_ _ _ (new3 & T3 & A3 & _) _];
        (exists (new3 ++ new2 ++ new1);
         split; [rewrite T3, T2, T1, !app_assoc; reflexivity|apply Hall, A3]).
    + simpl. destruct (frame_not_in _ _ _ F) as (new & T & A). exists new.
      split; [exact T|].
      repeat split; intros Hin; apply A, Hscan in Hin; tauto.
Qed.

(** ** An empty identifier in the exclusion list *)

Lemma auth_dir_nothing_deleted (exclude_idents running : list string) (dir : string) (w : world) :
  auth_dir registry_auth_prefix exclude_idents running [] dir tt w =
  (match ident_of dir with Some _ => Ok tt | None => Raise AttributeError end, w).
Proof.
  unfold auth_dir, mem. destruct (ident_of dir) as [ident|]; [|reflexivity].
  destruct (_ || _); [reflexivity|].
  rewrite bool_decide_eq_false_2; [reflexivity|]. apply not_elem_of_nil.
Qed.

Lemma auth_loop_nothing_deleted (exclude_idents running : list string) (dirs : list string)
    (w : world) :
  (for_each dirs (auth_dir registry_auth_prefix exclude_idents running []) tt w).2 = w ∧
  ((for_each dirs (auth_dir registry_auth_prefix exclude_idents running []) tt w).1 = Ok tt ∨
   (for_each dirs (auth_dir registry_auth_prefix exclude_idents running []) tt w).1
     = Raise AttributeError) ∧
  ((∀ dir, dir ∈ dirs → ident_of dir ≠ None) →
   (for_each dirs (auth_dir registry_auth_prefix exclude_idents running []) tt w).1 = Ok tt).
Proof.
  induction dirs as [|d dirs IH].
  - simpl. auto.
  - rewrite for_each_cons, bind_unfold, auth_dir_nothing_deleted.
    destruct (ident_of d) as [ident|] eqn:Hid.
    + destruct IH as (IH1 & IH2 & IH3). repeat split; auto.
      intros H. apply IH3. intros dir Hdir. apply H. by right.
    + simpl. repeat split; auto.
      intros H. exfalso. apply (H d); [left|exact Hid].
Qed.

(** C10.  When the exclusion list contains the empty string (as it does
    after a trailing or doubled comma in the option), the empty string is
    a substring of every path, so for every pattern the loop body skips
    every directory; [cleanup_dirs] only performs its two globs, leaves
    the file system as it was, and returns 0.  The one way not to return
    is the failed match on a credential directory whose name does not fit
    the identifier pattern, and nothing is deleted then either. *)
Theorem empty_ident_skips_everything (pattern : string) (exclude_idents : list string)
    (w : world) :
  "" ∈ exclude_idents →
  (∀ dir s w0, scan_dir exclude_idents dir s w0 = (Ok s, w0)) ∧
  w_fs (cleanup_dirs registry_auth_prefix pattern exclude_idents w).2 = w_fs w ∧
  w_trace (cleanup_dirs registry_auth_prefix pattern exclude_idents w).2
    = EvGlob auth_pattern :: EvGlob pattern :: w_trace w ∧
  ((cleanup_dirs registry_auth_prefix pattern exclude_idents w).1 = Ok 0 ∨
   (cleanup_dirs registry_auth_prefix pattern exclude_idents w).1 = Raise AttributeError) ∧
  ((∀ dir, dir ∈ matches auth_pattern w → ident_of dir ≠ None) →
   (cleanup_dirs registry_auth_prefix pattern exclude_idents w).1 = Ok 0).
Proof.
  intros Hempty.
  assert (Hskip : ∀ dir s w0, scan_dir exclude_idents dir s w0 = (Ok s, w0)).
  { intros dir s w0. apply scan_dir_excluded, excluded_empty_ident, Hempty. }
  split; [exact Hskip|].
  assert (Hscan : cleanup_dirs_scan pattern exclude_idents w =
                  (Ok {| ct := 0; running_idents := []; deleted_idents := [] |},
                   log (EvGlob pattern) w)).
  { unfold cleanup_dirs_scan, iglob. rewrite bind_unfold.
    apply for_each_skip. intros; apply Hskip. }
  unfold cleanup_dirs. rewrite (bind_ok _ _ _ _ _ Hscan).
  set (w2 := log (EvGlob auth_pattern) (log (EvGlob pattern) w)).
  change (cleanup_dirs_auth registry_auth_prefix pattern exclude_idents
            {| ct := 0; running_idents := []; deleted_idents := [] |}
            (log (EvGlob pattern) w))
    with ((_ ← for_each (matches auth_pattern w)
                 (auth_dir registry_auth_prefix exclude_idents [] []) tt;
           mret 0) w2).
  rewrite bind_unfold.
  destruct (auth_loop_nothing_deleted exclude_idents [] (matches auth_pattern w) w2)
    as (Hw & Hr & Hok).
  destruct (for_each _ _ tt w2) as [[[]|e] w3]; simpl in *; subst w3.
  - repeat split; auto.
  - repeat split; auto.
    + destruct Hr as [Hr|Hr]; [discriminate|]. right. congruence.
    + intros H. specialize (Hok H). discriminate.
Qed.

(** ** The pid file *)

Lemma get_idents_world (dir : string) (w : world) :
  (_get_idents_from_pdd dir w).2 = log (EvListdir dir) w.
Proof.
  unfold _get_idents_from_pdd, try_except, listdir_artifacts.
  destruct (e_artifacts (lookup_entry dir w)) as [ids|e]; [reflexivity|].
  destruct (is_FileNotFoundError e); reflexivity.
Qed.

Lemma get_idents_log (dir : string) (ev : event) (w : world) :
  (_get_idents_from_pdd dir (log ev w)).1 = (_get_idents_from_pdd dir w).1.
Proof.
  unfold _get_idents_from_pdd, try_except, listdir_artifacts.
  change (lookup_entry dir (log ev w)) with (lookup_entry dir w).
  destruct (e_artifacts (lookup_entry dir w)) as [ids|e]; [reflexivity|].
  destruct (is_FileNotFoundError e); reflexivity.
Qed.

(** C7.  When the pid file can be read but its first line is not an
    integer, [is_alive] does not answer: the [ValueError] of [int] leaves
    it, the loop body that called it lets it pass without removing
    anything, and so does [cleanup_dirs] (stated for the first directory
    of the listing). *)
Theorem malformed_pid_is_fatal (dir : string) (w : world) (text : string) :
  e_pid (lookup_entry dir w) = Ok text →
  PyStr.int (PyStr.readline text) = None →
  is_alive dir w = (Raise ValueError, log (EvOpen dir) w) ∧
  (∀ exclude_idents s,
     excluded exclude_idents dir = false →
     returned (_get_idents_from_pdd dir w).1 →
     scan_dir exclude_idents dir s w =
       (Raise ValueError, log (EvOpen dir) (log (EvListdir dir) w))) ∧
  (∀ pattern exclude_idents rest,
     matches pattern w = dir :: rest →
     excluded exclude_idents dir = false →
     returned (_get_idents_from_pdd dir w).1 →
     cleanup_dirs registry_auth_prefix pattern exclude_idents w =
       (Raise ValueError, log (EvOpen dir) (log (EvListdir dir) (log (EvGlob pattern) w)))).
Proof.
  intros Hpid Hint.
  assert (Hbody : ∀ w0 exclude_idents s,
            e_pid (lookup_entry dir w0) = Ok text →
            excluded exclude_idents dir = false →
            returned (_get_idents_from_pdd dir w0).1 →
            scan_dir exclude_idents dir s w0 =
              (Raise ValueError, log (EvOpen dir) (log (EvListdir dir) w0))).
  { intros w0 exclude_idents s Hpid0 Hex [ids Hids].
    rewrite scan_dir_not_excluded by exact Hex.
    pose proof (get_idents_world dir w0) as Hw.
    destruct (_get_idents_from_pdd dir w0) as [r w1] eqn:E. simpl in *. subst r w1.
    rewrite (bind_ok _ _ _ _ _ E). cbv beta.
    apply bind_raise. by apply is_alive_malformed with text. }
  split; [by apply is_alive_malformed with text|]. split.
  - intros exclude_idents s Hex Hids. by apply Hbody.
  - intros pattern exclude_idents rest Hm Hex Hids.
    unfold cleanup_dirs. apply bind_raise.
    unfold cleanup_dirs_scan, iglob. rewrite bind_unfold, Hm, for_each_cons.
    apply bind_raise. apply Hbody; [exact Hpid|exact Hex|].
    rewrite get_idents_log. exact Hids.
Qed.

(** C8.  When the pid file is missing or cannot be opened ([open] raises an
    [OSError]), [is_alive] returns [False] and raises nothing; the loop
    body then takes the directory for finished: it hands it to [rmtree]
    and counts it. *)
Theorem missing_pid_file_not_alive (dir : string) (w : world) (e : exn) :
  e_pid (lookup_entry dir w) = Raise e →
  is_OSError e = true →
  is_alive dir w = (Ok (PyBool false), log (EvOpen dir) w) ∧
  ∀ exclude_idents s ids,
    excluded exclude_idents dir = false →
    (_get_idents_from_pdd dir w).1 = Ok ids →
    scan_dir exclude_idents dir s w =
      (_ ← rmtree dir;
       mret {| ct := ct s + 1;
               running_idents := running_idents s;
               deleted_idents := deleted_idents s ++ ids |})
        (log (EvOpen dir) (log (EvListdir dir) w)).
Proof.
  intros Hpid Hos. split; [by apply is_alive_no_pidfile with e|].
  intros exclude_idents s ids Hex Hids.
  rewrite scan_dir_not_excluded by exact Hex.
  pose proof (get_idents_world dir w) as Hw.
  destruct (_get_idents_from_pdd dir w) as [r w1] eqn:E. simpl in *. subst r w1.
  rewrite (bind_ok _ _ _ _ _ E). cbv beta.
  rewrite (bind_ok _ _ _ _ _
             (is_alive_no_pidfile dir (log (EvListdir dir) w) e Hpid Hos)).
  reflexivity.
Qed.

(** ** Counting the marker in the output of [rmi] *)

Lemma prefix_cons (a b : ascii) (s1 s2 : string) :
  String.prefix (String a s1) (String b s2) = (if Ascii.ascii_dec a b then String.prefix s1 s2 else false).
Proof. reflexivity. Qed.

Lemma prefix_empty (s : string) : String.prefix "" s = true.
Proof. destruct s; reflexivity. Qed.

Lemma prefix_all_stripped (p : ascii → bool) (sub s : string) :
  ends_unstripped p sub → PyStr.rstrip_by p s = EmptyString → String.prefix sub s = false.
Proof.
  revert sub. induction s as [|c s IH]; intros sub Hsub Hs.
  - destruct sub; [destruct Hsub|reflexivity].
  - simpl in Hs. destruct (PyStr.rstrip_by p s) eqn:E; [|discriminate].
    destruct (p c) eqn:Hc; [|discriminate].
    destruct sub as [|a sub]; [destruct Hsub|].
    rewrite prefix_cons. destruct (Ascii.ascii_dec a c) as [->|]; [|reflexivity].
    destruct sub as [|b sub].
    + simpl in Hsub. congruence.
    + apply IH; auto.
Qed.

Lemma prefix_rstrip (p : ascii → bool) (sub s : string) :
  ends_unstripped p sub → String.prefix sub (PyStr.rstrip_by p s) = String.prefix sub s.
Proof.
  revert sub. induction s as [|c s IH]; intros sub Hsub; [reflexivity|].
  destruct sub as [|a sub]; [destruct Hsub|].
  simpl PyStr.rstrip_by.
  destruct (PyStr.rstrip_by p s) as [|r0 r] eqn:E.
  - destruct sub as [|b sub].
    + simpl in Hsub. destruct (p c) eqn:Hc.
      * simpl. destruct (Ascii.ascii_dec a c) as [->|]; [congruence|reflexivity].
      * rewrite !prefix_cons, !prefix_empty. reflexivity.
    + assert (Hf : String.prefix (String b sub) s = false)
        by (apply (prefix_all_stripped p); auto).
      rewrite (prefix_cons a c (String b sub) s), Hf.
      destruct (p c); [by destruct (Ascii.ascii_dec a c)|].
      rewrite prefix_cons. destruct (Ascii.ascii_dec a c); reflexivity.
  - rewrite !prefix_cons. destruct (Ascii.ascii_dec a c); [|reflexivity].
    destruct sub as [|b sub]; [by rewrite !prefix_empty|].
    apply IH. exact Hsub.
Qed.

Lemma count_from_cons (sub : string) (c : ascii) (s : string) (k : nat) :
  PyStr.count_from sub (String c s) k =
  match k with
  | O => if String.prefix sub (String c s)
         then S (PyStr.count_from sub s (String.length sub - 1))
         else PyStr.count_from sub s 0
  | S k' => PyStr.count_from sub s k'
  end.
Proof. reflexivity. Qed.

Lemma count_all_stripped (p : ascii → bool) (sub s : string) (k : nat) :
  ends_unstripped p sub → PyStr.rstrip_by p s = EmptyString → PyStr.count_from sub s k = 0%nat.
Proof.
  intros Hsub. revert k. induction s as [|c s IH]; intros k Hs; [reflexivity|].
  pose proof (prefix_all_stripped p sub _ Hsub Hs) as Hp.
  simpl in Hs. destruct (PyStr.rstrip_by p s) eqn:E; [|discriminate].
  rewrite count_from_cons. destruct k; [|apply IH; reflexivity].
  rewrite Hp. apply IH. reflexivity.
Qed.

Lemma count_rstrip (p : ascii → bool) (sub s : string) (k : nat) :
  ends_unstripped p sub →
  PyStr.count_from sub (PyStr.rstrip_by p s) k = PyStr.count_from sub s k.
Proof.
  intros Hsub. revert k. induction s as [|c s IH]; intros k; [reflexivity|].
  pose proof (prefix_rstrip p sub (String c s) Hsub) as Hp.
  simpl PyStr.rstrip_by in *.
  destruct (PyStr.rstrip_by p s) as [|r0 r] eqn:E.
  - destruct (p c) eqn:Hc.
    + symmetry. apply (count_all_stripped p); auto. simpl. rewrite E, Hc. reflexivity.
    + rewrite !count_from_cons. destruct k.
      * rewrite Hp. rewrite !(count_all_stripped p sub s) by auto.
        destruct (String.prefix sub (String c s)); reflexivity.
      * rewrite (count_all_stripped p sub s) by auto. reflexivity.
  - rewrite !count_from_cons. destruct k.
    + rewrite Hp. rewrite <- !IH. reflexivity.
    + rewrite <- IH. reflexivity.
Qed.

Lemma count_lstrip (p : ascii → bool) (a : ascii) (sub s : string) :
  p a = false →
  PyStr.count_from (String a sub) (PyStr.lstrip_by p s) 0 = PyStr.count_from (String a sub) s 0.
Proof.
  intros Ha. induction s as [|c s IH]; [reflexivity|].
  simpl PyStr.lstrip_by. destruct (p c) eqn:Hc; [|reflexivity].
  rewrite IH, (count_from_cons _ c s 0).
  rewrite prefix_cons. destruct (Ascii.ascii_dec a c) as [->|]; [congruence|reflexivity].
Qed.

Lemma count_untagged_strip (s : string) :
  PyStr.count "Untagged:" (PyStr.strip s) = PyStr.count "Untagged:" s.
Proof.
  unfold PyStr.count, PyStr.strip, PyStr.strip_by.
  rewrite (count_rstrip PyStr.isspace) by reflexivity.
  apply count_lstrip. reflexivity.
Qed.

Lemma untagged_total_app (evs1 evs2 : list event) :
  untagged_total (evs1 ++ evs2) = untagged_total evs1 + untagged_total evs2.
Proof.
  induction evs1 as [|ev evs1 IH]; simpl; [reflexivity|].
  unfold untagged_total in *. simpl. rewrite IH. lia.
Qed.

Lemma run_command_returns (cmd : list string) (w : world) (out : string) :
  w_exec w (w_trace w) cmd = completed 0 out →
  run_command cmd w = (Ok (PyStr.strip out), log (EvRun cmd (completed 0 out)) w).
Proof.
  intros H. unfold run_command, subprocess_run. rewrite bind_unfold, H. reflexivity.
Qed.

Lemma run_command_fails (cmd : list string) (w : world) (rc : Z) (out : string) :
  w_exec w (w_trace w) cmd = completed rc out → rc ≠ 0 →
  (run_command cmd w).1 = Raise RuntimeError.
Proof.
  intros H Hrc. unfold run_command, subprocess_run. rewrite bind_unfold, H.
  apply Z.eqb_neq in Hrc. unfold completed. cbn. rewrite Hrc. reflexivity.
Qed.

(** [run_command] returns only for a process that finished with status 0
    and decodable output. *)
Lemma run_command_ok (cmd : list string) (w w' : world) (s : string) :
  run_command cmd w = (Ok s, w') →
  ∃ out, w_exec w (w_trace w) cmd = completed 0 out ∧ s = PyStr.strip out ∧
         w' = log (EvRun cmd (completed 0 out)) w.
Proof.
  unfold run_command, subprocess_run. rewrite bind_unfold.
  destruct (w_exec w (w_trace w) cmd) as [[rc [out|]]|e] eqn:E; cbn; try discriminate.
  destruct (rc =? 0) eqn:Hrc; cbn; [|discriminate].
  apply Z.eqb_eq in Hrc. subst rc. intros [= <- <-]. exists out. auto.
Qed.

Lemma runtime_succeeds_at (w : world) (cmd : list string) :
  runtime_succeeds w → ∃ out, w_exec w (w_trace w) cmd = completed 0 out.
Proof. intros H. apply H. Qed.

Lemma untagged_total_cons (ev : event) (evs : list event) :
  untagged_total (ev :: evs) = untagged_in ev + untagged_total evs.
Proof. reflexivity. Qed.

Lemma replayed_app (exec : list event → list string → result (Z * option string))
    (tr evs1 evs2 : list event) :
  replayed exec tr (evs1 ++ evs2) ↔
  replayed exec tr evs1 ∧ replayed exec (reverse evs1 ++ tr) evs2.
Proof.
  revert tr. induction evs1 as [|ev evs1 IH]; intros tr; simpl; [tauto|].
  rewrite IH, reverse_cons, <- app_assoc. simpl. tauto.
Qed.

(** The inner loop, when it runs to its end: one successful [rmi] per
    line, each adding the occurrences of the marker in its output. *)
Lemma remove_tag_loop_ok (runtime : string) (lines : list string) (rm_ct : Z)
    (w w' : world) (n : Z) :
  for_each lines (remove_tag runtime) rm_ct w = (Ok n, w') →
  ∃ rmis, Forall2 (rmi_run runtime) lines rmis ∧
          replayed (w_exec w) (w_trace w) rmis ∧
          w_trace w' = reverse rmis ++ w_trace w ∧ w_exec w' = w_exec w ∧
          n = rm_ct + untagged_total rmis.
Proof.
  revert rm_ct w. induction lines as [|l lines IH]; intros rm_ct w H.
  - injection H as <- <-. exists []. repeat split; [constructor|].
    unfold untagged_total. simpl. lia.
  - rewrite for_each_cons, bind_unfold in H. unfold remove_tag at 1 in H.
    rewrite bind_unfold in H.
    destruct (run_command [runtime; "rmi"; PyStr.strip_char PyStr.dquote (PyStr.strip l); "-f"] w)
      as [[s|e] w1] eqn:Hrun; [|discriminate].
    apply run_command_ok in Hrun as (out & Hout & -> & ->).
    apply IH in H as (rmis & F & R & T & X & N).
    exists (EvRun [runtime; "rmi"; PyStr.strip_char PyStr.dquote (PyStr.strip l); "-f"]
              (completed 0 out) :: rmis).
    split; [|split; [|split; [|split]]].
    + constructor; [exists out; reflexivity|exact F].
    + split; [exact Hout|exact R].
    + rewrite T, reverse_cons, <- app_assoc. reflexivity.
    + exact X.
    + rewrite N, untagged_total_cons, count_untagged_strip. simpl. lia.
Qed.

(** The body of the outer loop, when it returns: the listing, and the
    inner loop over the lines of its answer. *)
Lemma remove_image_ok (runtime tag : string) (rm_ct : Z) (w w' : world) (n : Z) :
  remove_image runtime tag rm_ct w = (Ok n, w') →
  ∃ evs, tag_runs runtime tag evs ∧
         replayed (w_exec w) (w_trace w) evs ∧
         w_trace w' = reverse evs ++ w_trace w ∧ w_exec w' = w_exec w ∧
         n = rm_ct + untagged_total evs.
Proof.
  unfold remove_image. rewrite bind_unfold.
  destruct (run_command [runtime; "images"; images_format; tag] w)
    as [[s|e] w1] eqn:Hrun; [|discriminate].
  apply run_command_ok in Hrun as (out & Hout & -> & ->). intros H.
  assert (Hloop : for_each (listed_refs out) (remove_tag runtime) rm_ct
                    (log (EvRun [runtime; "images"; images_format; tag] (completed 0 out)) w)
                  = (Ok n, w')).
  { unfold listed_refs. destruct (String.eqb (PyStr.strip out) ""); exact H. }
  apply remove_tag_loop_ok in Hloop as (rmis & F & R & T & X & N).
  exists (EvRun [runtime; "images"; images_format; tag] (completed 0 out) :: rmis).
  split; [|split; [|split; [|split]]].
  - exists out, rmis. split; [reflexivity|exact F].
  - split; [exact Hout|exact R].
  - rewrite T, reverse_cons, <- app_assoc. reflexivity.
  - exact X.
  - rewrite N, untagged_total_cons. simpl. lia.
Qed.

Lemma remove_image_loop_ok (runtime : string) (images : list string) (rm_ct : Z)
    (w w' : world) (n : Z) :
  for_each images (remove_image runtime) rm_ct w = (Ok n, w') →
  ∃ per_tag, Forall2 (tag_runs runtime) images per_tag ∧
             replayed (w_exec w) (w_trace w) (concat per_tag) ∧
             w_trace w' = reverse (concat per_tag) ++ w_trace w ∧
             w_exec w' = w_exec w ∧
             n = rm_ct + untagged_total (concat per_tag).
Proof.
  revert rm_ct w. induction images as [|tag images IH]; intros rm_ct w H.
  - injection H as <- <-. exists []. repeat split; [constructor|].
    unfold untagged_total. simpl. lia.
  - rewrite for_each_cons, bind_unfold in H.
    destruct (remove_image runtime tag rm_ct w) as [[m|e] w1] eqn:H1; [|discriminate].
    apply remove_image_ok in H1 as (evs & G & R1 & T1 & X1 & N1).
    apply IH in H as (per_tag & F & R & T & X & N).
    exists (evs :: per_tag). simpl. split; [|split; [|split; [|split]]].
    + constructor; [exact G|exact F].
    + apply replayed_app. split; [exact R1|]. rewrite <- T1, <- X1. exact R.
    + rewrite T, T1, reverse_app, app_assoc. reflexivity.
    + congruence.
    + rewrite untagged_total_app. lia.
Qed.

(** Conversely, when the runtime answers every command of these runs with
    status 0, the loops run to their end. *)
Lemma remove_tag_loop_replay (runtime : string) (lines : list string) (rmis : list event) :
  Forall2 (rmi_run runtime) lines rmis →
  ∀ rm_ct w, replayed (w_exec w) (w_trace w) rmis →
    ∃ w', for_each lines (remove_tag runtime) rm_ct w
            = (Ok (rm_ct + untagged_total rmis), w') ∧
          w_trace w' = reverse rmis ++ w_trace w ∧ w_exec w' = w_exec w.
Proof.
  induction 1 as [|l ev lines rmis [out ->] F IH]; intros rm_ct w R.
  - exists w. repeat split. simpl. unfold untagged_total. simpl.
    rewrite Z.add_0_r. reflexivity.
  - destruct R as [Hout R].
    rewrite for_each_cons, bind_unfold. unfold remove_tag at 1.
    rewrite bind_unfold, (run_command_returns _ _ _ Hout). cbv beta iota.
    destruct (IH (rm_ct + Z.of_nat (PyStr.count "Untagged:" (PyStr.strip out)))
                (log (EvRun [runtime; "rmi"; PyStr.strip_char PyStr.dquote (PyStr.strip l); "-f"]
                        (completed 0 out)) w) R) as (w' & E & T & X).
    exists w'. split; [|split].
    + change ((mret (rm_ct + Z.of_nat (PyStr.count "Untagged:" (PyStr.strip out))) : M Z)
                (log (EvRun [runtime; "rmi"; PyStr.strip_char PyStr.dquote (PyStr.strip l); "-f"]
                        (completed 0 out)) w))
        with (Ok (rm_ct + Z.of_nat (PyStr.count "Untagged:" (PyStr.strip out))),
              log (EvRun [runtime; "rmi"; PyStr.strip_char PyStr.dquote (PyStr.strip l); "-f"]
                     (completed 0 out)) w).
      cbv beta iota. rewrite E. f_equal. f_equal.
      rewrite untagged_total_cons, count_untagged_strip. simpl. lia.
    + rewrite T, reverse_cons, <- app_assoc. reflexivity.
    + exact X.
Qed.

Lemma remove_image_replay (runtime tag : string) (evs : list event) (rm_ct : Z) (w : world) :
  tag_runs runtime tag evs → replayed (w_exec w) (w_trace w) evs →
  ∃ w', remove_image runtime tag rm_ct w = (Ok (rm_ct + untagged_total evs), w') ∧
        w_trace w' = reverse evs ++ w_trace w ∧ w_exec w' = w_exec w.
Proof.
  intros (out & rmis & -> & F) [Hout R].
  destruct (remove_tag_loop_replay runtime _ _ F rm_ct
              (log (EvRun [runtime; "images"; images_format; tag] (completed 0 out)) w) R)
    as (w' & E & T & X).
  exists w'. split; [|split].
  - unfold remove_image. rewrite bind_unfold, (run_command_returns _ _ _ Hout).
    rewrite untagged_total_cons. simpl untagged_in. rewrite Z.add_0_l.
    unfold listed_refs in E. destruct (String.eqb (PyStr.strip out) ""); exact E.
  - rewrite T, reverse_cons, <- app_assoc. reflexivity.
  - exact X.
Qed.

Lemma remove_image_loop_replay (runtime : string) (images : list string)
    (per_tag : list (list event)) :
  Forall2 (tag_runs runtime) images per_tag →
  ∀ rm_ct w, replayed (w_exec w) (w_trace w) (concat per_tag) →
    ∃ w', for_each images (remove_image runtime) rm_ct w
            = (Ok (rm_ct + untagged_total (concat per_tag)), w') ∧
          w_trace w' = reverse (concat per_tag) ++ w_trace w ∧ w_exec w' = w_exec w.
Proof.
  induction 1 as [|tag evs images per_tag G F IH]; intros rm_ct w R.
  - exists w. repeat split. simpl. unfold untagged_total. simpl.
    rewrite Z.add_0_r. reflexivity.
  - simpl in R. apply replayed_app in R as [R1 R2].
    destruct (remove_image_replay runtime tag evs rm_ct w G R1) as (w1 & E1 & T1 & X1).
    rewrite <- T1, <- X1 in R2.
    destruct (IH (rm_ct + untagged_total evs) w1 R2) as (w' & E & T & X).
    exists w'. split; [|split].
    + rewrite for_each_cons, (bind_ok _ _ _ _ _ E1), E. f_equal. f_equal.
      simpl. rewrite untagged_total_app. lia.
    + simpl. rewrite T, T1, reverse_app, app_assoc. reflexivity.
    + congruence.
Qed.

(** C5.  [cleanup_images] returns exactly when the runtime answers with
    status 0 each of these commands, asked in this order: for each
    requested tag the listing of the tag, and then one [rmi] for each line
    of the listing's output, none when that output is empty.  These
    commands are then all it has run, and the number it returns is the
    sum, over the [rmi] invocations among them, of the number of
    occurrences of the marker [Untagged:] in the output of each; the
    number is reported when it is not 0.  A requested tag whose listing
    comes back empty leaves the count as it is and causes no command but
    the listing itself. *)
Theorem cleanup_images_counts_untagged (images : list string) (runtime : string)
    (w : world) :
  (∀ n w',
     cleanup_images images runtime w = (Ok n, w') →
     ∃ per_tag,
       Forall2 (tag_runs runtime) images per_tag ∧
       replayed (w_exec w) (w_trace w) (concat per_tag) ∧
       w_trace w' = (if n =? 0 then [] else [EvPrint (MsgRemovedImages n)])
                      ++ reverse (concat per_tag) ++ w_trace w ∧
       n = untagged_total (concat per_tag)) ∧
  (∀ per_tag,
     Forall2 (tag_runs runtime) images per_tag →
     replayed (w_exec w) (w_trace w) (concat per_tag) →
     (cleanup_images images runtime w).1 = Ok (untagged_total (concat per_tag))) ∧
  (∀ image_tag rm_ct w0 out,
     w_exec w0 (w_trace w0) [runtime; "images"; images_format; image_tag] = completed 0 out →
     PyStr.strip out = "" →
     remove_image runtime image_tag rm_ct w0 =
       (Ok rm_ct,
        log (EvRun [runtime; "images"; images_format; image_tag] (completed 0 out)) w0)).
Proof.
  split; [|split].
  - intros n w' H. unfold cleanup_images in H. rewrite bind_unfold in H.
    destruct (for_each images (remove_image runtime) 0 w) as [[m|e] w1] eqn:Hloop;
      [|discriminate].
    apply remove_image_loop_ok in Hloop as (per_tag & F & R & T & _ & N).
    rewrite Z.add_0_l in N. exists per_tag.
    destruct (m =? 0) eqn:Hm; simpl in H; injection H as <- <-; rewrite Hm.
    + repeat split; auto.
    + repeat split; auto. simpl. rewrite T. reflexivity.
  - intros per_tag F R.
    destruct (remove_image_loop_replay runtime images per_tag F 0 w R) as (w1 & E & _ & _).
    rewrite Z.add_0_l in E. unfold cleanup_images. rewrite (bind_ok _ _ _ _ _ E).
    destruct (negb (untagged_total (concat per_tag) =? 0)); reflexivity.
  - intros image_tag rm_ct w0 out Hout Hempty.
    unfold remove_image. rewrite bind_unfold, (run_command_returns _ _ _ Hout), Hempty.
    reflexivity.
Qed.

(** C6.  [prune_images] returns [False] exactly when the output of the
    prune command, as [run_command] hands it over, is empty or is the
    message that no space was reclaimed; otherwise it returns [True]. *)
Theorem prune_images_changed (runtime : string) (w w1 : world) (out : string) :
  run_command [runtime; "image"; "prune"; "-f"] w = (Ok out, w1) →
  ∃ b w', prune_images runtime w = (Ok b, w') ∧
          (b = false ↔ out = "" ∨ out = "Total reclaimed space: 0B") ∧
          (b = true ↔ ¬ (out = "" ∨ out = "Total reclaimed space: 0B")).
Proof.
  intros Hrun. unfold prune_images. rewrite (bind_ok _ _ _ _ _ Hrun).
  destruct (String.eqb out "") eqn:E1; simpl.
  - apply String.eqb_eq in E1. exists false, w1.
    split; [reflexivity|]. split; split.
    + intros _. left. exact E1.
    + reflexivity.
    + discriminate.
    + intros H. exfalso. apply H. left. exact E1.
  - destruct (String.eqb out "Total reclaimed space: 0B") eqn:E2.
    + apply String.eqb_eq in E2. exists false, w1.
      split; [reflexivity|]. split; split.
      * intros _. right. exact E2.
      * reflexivity.
      * discriminate.
      * intros H. exfalso. apply H. right. exact E2.
    + apply String.eqb_neq in E1, E2.
      exists true, (log (EvPrint MsgPruned) w1).
      split; [reflexivity|]. split; split.
      * discriminate.
      * intros [?|?]; contradiction.
      * intros _ [?|?]; contradiction.
      * reflexivity.
Qed.

(** ** The orchestrator *)

Lemma split_not_nil (sep : ascii) (s : string) : PyStr.split sep s ≠ [].
Proof.
  destruct s as [|c s]; simpl; [discriminate|].
  destruct (PyStr.eqc c sep); [discriminate|].
  destruct (PyStr.split sep s); discriminate.
Qed.

Lemma comma_sep_parse_nil (vargs : options) (key : options → option string) :
  comma_sep_parse vargs key = [] ↔ given (key vargs) = false.
Proof.
  unfold comma_sep_parse. destruct (given (key vargs)).
  - split; [|discriminate]. intros H. by apply split_not_nil in H.
  - split; reflexivity.
Qed.

Lemma emits_cleanup_dirs (pattern : string) (exclude_idents : list string) :
  emits (λ ev, file_event ev = true ∨ print_event ev = true)
    (cleanup_dirs registry_auth_prefix pattern exclude_idents).
Proof.
  unfold cleanup_dirs. apply emits_bind.
  - unfold cleanup_dirs_scan. apply emits_bind.
    + apply emits_iglob. by left.
    + intros dirs. apply emits_for_each. intros dir s _.
      apply emits_scan_dir; [intros _; repeat split; by left|intros pid; by left].
  - intros s. unfold cleanup_dirs_auth.
    apply emits_bind; [apply emits_if; [apply emits_print; by right|apply emits_mret]|].
    intros _.
    apply emits_bind; [apply emits_if; [apply emits_print; by right|apply emits_mret]|].
    intros _.
    apply emits_bind; [apply emits_iglob; by left|]. intros dirs.
    apply emits_bind; [|intros _; apply emits_mret].
    eapply emits_weaken; [|apply emits_auth_loop].
    intros ev [[m ->]|(d & i & -> & _)]; [by right|by left].
Qed.

Lemma emits_cleanup_images (images : list string) (runtime : string) :
  emits (λ ev, image_event ev = true ∨ print_event ev = true)
    (cleanup_images images runtime).
Proof.
  unfold cleanup_images. apply emits_bind.
  - apply emits_for_each. intros tag rm_ct _. unfold remove_image.
    apply emits_bind.
    + apply emits_run_command; [intros outcome; by left|intros m; by right].
    + intros stdout. apply emits_if; [apply emits_mret|].
      apply emits_for_each. intros dtag n _. unfold remove_tag.
      apply emits_bind; [|intros out; apply emits_mret].
      apply emits_run_command; [intros outcome; by left|intros m; by right].
  - intros rm_ct.
    apply emits_bind; [apply emits_if; [apply emits_print; by right|apply emits_mret]|].
    intros _. apply emits_mret.
Qed.

Lemma emits_prune_images (runtime : string) :
  emits (λ ev, prune_event ev = true ∨ print_event ev = true) (prune_images runtime).
Proof.
  unfold prune_images. apply emits_bind.
  - apply emits_run_command; [intros outcome; by left|intros m; by right].
  - intros stdout. apply emits_if; [apply emits_mret|].
    apply emits_bind; [apply emits_print; by right|]. intros _. apply emits_mret.
Qed.

Lemma emits_run_cleanup (vargs : options) :
  emits (gated vargs) (run_cleanup registry_auth_prefix vargs).
Proof.
  unfold run_cleanup. apply emits_bind; [|intros dir_ct; apply emits_bind;
    [|intros image_ct; apply emits_bind; [|intros pruned]]].
  - destruct (given (arg_file_pattern vargs)) eqn:E; [|apply emits_mret].
    eapply emits_weaken; [|apply emits_cleanup_dirs].
    intros ev [H|H]; [right; left; by rewrite H|by left].
  - destruct (negb (bool_decide (comma_sep_parse vargs arg_remove_images = []))) eqn:E;
      [|apply emits_mret].
    assert (G : given (arg_remove_images vargs) = true).
    { destruct (given (arg_remove_images vargs)) eqn:G; [reflexivity|].
      apply comma_sep_parse_nil in G. rewrite G in E. discriminate. }
    eapply emits_weaken; [|apply emits_cleanup_images].
    intros ev [H|H]; [right; right; left; by rewrite H|by left].
  - destruct (arg_image_prune vargs) eqn:E; [|apply emits_mret].
    eapply emits_weaken; [|apply emits_prune_images].
    intros ev [H|H]; [right; right; right; by rewrite H|by left].
  - apply emits_if; apply emits_print; by left.
Qed.

(** C9.  [run_cleanup] calls the file system only when [file_pattern] is
    given, runs [images] and [rmi] only when [remove_images] is not empty,
    and runs the prune command only when [image_prune] is set.  Its last
    line reports a change if and only if the number of removed
    directories is not zero, or the number of untagged images is not zero,
    or the prune reclaimed space.  With none of the three options it does
    nothing but report that nothing changed. *)
Theorem run_cleanup_runs_what_is_asked (vargs : options) (w : world) :
  (∃ new, w_trace (run_cleanup registry_auth_prefix vargs w).2 = new ++ w_trace w ∧
     (given (arg_file_pattern vargs) = false → Forall (λ ev, file_event ev = false) new) ∧
     (comma_sep_parse vargs arg_remove_images = [] →
      Forall (λ ev, image_event ev = false) new) ∧
     (arg_image_prune vargs = false → Forall (λ ev, prune_event ev = false) new)) ∧
  (given (arg_file_pattern vargs) = false →
   w_fs (run_cleanup registry_auth_prefix vargs w).2 = w_fs w) ∧
  (∀ dir_ct image_ct pruned w1 w2 w3,
     (if given (arg_file_pattern vargs)
      then cleanup_dirs registry_auth_prefix (default "" (arg_file_pattern vargs))
             (comma_sep_parse vargs arg_exclude_idents)
      else mret 0) w = (Ok dir_ct, w1) →
     (if negb (bool_decide (comma_sep_parse vargs arg_remove_images = []))
      then cleanup_images (comma_sep_parse vargs arg_remove_images)
             (arg_process_isolation_executable vargs)
      else mret 0) w1 = (Ok image_ct, w2) →
     (if arg_image_prune vargs
      then prune_images (arg_process_isolation_executable vargs)
      else mret false) w2 = (Ok pruned, w3) →
     run_cleanup registry_auth_prefix vargs w =
       (Ok tt,
        log (EvPrint (MsgChanged (negb (dir_ct =? 0) || negb (image_ct =? 0) || pruned))) w3)) ∧
  (given (arg_file_pattern vargs) = false →
   comma_sep_parse vargs arg_remove_images = [] →
   arg_image_prune vargs = false →
   run_cleanup registry_auth_prefix vargs w = (Ok tt, log (EvPrint (MsgChanged false)) w)).
Proof.
  pose proof (emits_run_cleanup vargs w) as F.
  split; [|split; [|split]].
  - destruct F as [_ _ _ (new & T & A & _) _]. exists new. split; [exact T|].
    repeat split; intros H; (eapply Forall_impl; [exact A|]); intros ev Hev.
    + destruct Hev as [Hp|[[Hf G]|[[Hi G]|[Hq G]]]].
      * by destruct ev.
      * congruence.
      * destruct ev; try discriminate; reflexivity.
      * destruct ev; try discriminate; reflexivity.
    + apply comma_sep_parse_nil in H.
      destruct Hev as [Hp|[[Hf G]|[[Hi G]|[Hq G]]]].
      * by destruct ev.
      * destruct ev; try discriminate; reflexivity.
      * congruence.
      * destruct ev as [| | | | |cmd outcome|]; try discriminate.
        destruct cmd as [|a [|b [|c [|d [|]]]]]; try discriminate.
        simpl in Hq. apply andb_prop in Hq as [[Hb _]%andb_prop _].
        apply String.eqb_eq in Hb. subst b. reflexivity.
    + destruct Hev as [Hp|[[Hf G]|[[Hi G]|[Hq G]]]].
      * by destruct ev.
      * destruct ev; try discriminate; reflexivity.
      * destruct ev as [| | | | |cmd outcome|]; try discriminate.
        destruct cmd as [|a [|b cmd]]; try discriminate.
        simpl in Hi. apply orb_prop in Hi as [Hb|Hb];
          apply String.eqb_eq in Hb; subst b;
          destruct cmd as [|c [|d [|]]]; reflexivity.
      * congruence.
  - intros G. eapply frame_fs; [exact F|].
    intros ev [Hp|[[Hf G']|[[Hi _]|[Hq _]]]]; try congruence; by destruct ev.
  - intros dir_ct image_ct pruned w1 w2 w3 H1 H2 H3. unfold run_cleanup.
    rewrite (bind_ok _ _ _ _ _ H1). cbv beta.
    rewrite (bind_ok _ _ _ _ _ H2). cbv beta.
    rewrite (bind_ok _ _ _ _ _ H3). cbv beta.
    destruct (negb (dir_ct =? 0) || negb (image_ct =? 0) || pruned); reflexivity.
  - intros G1 G2 G3. unfold run_cleanup. rewrite G1, G2, G3. reflexivity.
Qed.

End Properties.

(** * Concrete runs *)

(** ** The liveness check answers the wrong way round

    [is_alive] returns 0 when the signal can be sent and 1 when [os.kill]
    raises, and [cleanup_dirs] reads the answer as a truth value.  The
    two lemmas state what the loop body does in general. *)

Lemma scan_dir_signal_sent (exclude_idents : list string) (dir : string) (s : scan)
    (w : world) (ids : list string) (text : string) (pid : Z) :
  excluded exclude_idents dir = false →
  (_get_idents_from_pdd dir w).1 = Ok ids →
  e_pid (lookup_entry dir w) = Ok text →
  PyStr.int (PyStr.readline text) = Some pid →
  w_kill w pid = None →
  scan_dir exclude_idents dir s w =
    (_ ← rmtree dir;
     mret {| ct := ct s + 1;
             running_idents := running_idents s;
             deleted_idents := deleted_idents s ++ ids |})
      (log (EvKill pid SIG_DFL) (log (EvOpen dir) (log (EvListdir dir) w))).
Proof.
  intros Hex Hids Hpid Hint Hk.
  rewrite scan_dir_not_excluded by exact Hex.
  pose proof (get_idents_world dir w) as Hw.
  destruct (_get_idents_from_pdd dir w) as [r w1] eqn:E. simpl in *. subst r w1.
  rewrite (bind_ok _ _ _ _ _ E). cbv beta.
  rewrite (bind_ok _ _ _ _ _
             (is_alive_signal_sent dir (log (EvListdir dir) w) text pid Hpid Hint Hk)).
  reflexivity.
Qed.

Lemma scan_dir_signal_refused (exclude_idents : list string) (dir : string) (s : scan)
    (w : world) (ids : list string) (text : string) (pid : Z) (e : exn) :
  excluded exclude_idents dir = false →
  (_get_idents_from_pdd dir w).1 = Ok ids →
  e_pid (lookup_entry dir w) = Ok text →
  PyStr.int (PyStr.readline text) = Some pid →
  w_kill w pid = Some e → is_OSError e = true →
  scan_dir exclude_idents dir s w =
    (Ok {| ct := ct s;
           running_idents := running_idents s ++ ids;
           deleted_idents := deleted_idents s |},
     log (EvKill pid SIG_DFL) (log (EvOpen dir) (log (EvListdir dir) w))).
Proof.
  intros Hex Hids Hpid Hint Hk Hos.
  rewrite scan_dir_not_excluded by exact Hex.
  pose proof (get_idents_world dir w) as Hw.
  destruct (_get_idents_from_pdd dir w) as [r w1] eqn:E. simpl in *. subst r w1.
  rewrite (bind_ok _ _ _ _ _ E). cbv beta.
  rewrite (bind_ok _ _ _ _ _
             (is_alive_signal_refused dir (log (EvListdir dir) w) text pid e Hpid Hint Hk Hos)).
  reflexivity.
Qed.

(** C1 (the code differs).  The process recorded for [/tmp/run-A] is
    running: the signal is sent, [is_alive] returns 0, which is false in a
    condition, and [cleanup_dirs] removes the directory, puts its
    identifier among the deleted ones and counts it. *)
Theorem live_job_dir_is_removed :
  (is_alive "/tmp/run-A" live_world).1 = Ok (PyInt 0) ∧
  truthy (PyInt 0) = false ∧
  (cleanup_dirs_scan "/tmp/run-*" [] live_world).1 =
    Ok {| ct := 1; running_idents := []; deleted_idents := ["j1"] |} ∧
  w_trace (cleanup_dirs_scan "/tmp/run-*" [] live_world).2 =
    [EvRmtree "/tmp/run-A"; EvKill 100 0; EvOpen "/tmp/run-A";
     EvListdir "/tmp/run-A"; EvGlob "/tmp/run-*"] ∧
  (cleanup_dirs example_prefix "/tmp/run-*" [] live_world).1 = Ok 1 ∧
  w_fs live_world !! "/tmp/run-A" = Some (job_dir (line "100") ["j1"]) ∧
  w_fs (cleanup_dirs example_prefix "/tmp/run-*" [] live_world).2 !! "/tmp/run-A" = None.
Proof. repeat split; vm_compute; reflexivity. Qed.

(** C2 (the code differs).  The process recorded for [/tmp/run-B] does not
    exist: [os.kill] raises, [is_alive] returns 1, which is true in a
    condition, and [cleanup_dirs] keeps the directory, reports its
    identifier as running and counts nothing. *)
Theorem dead_job_dir_is_kept :
  (is_alive "/tmp/run-B" dead_world).1 = Ok (PyInt 1) ∧
  truthy (PyInt 1) = true ∧
  (cleanup_dirs_scan "/tmp/run-*" [] dead_world).1 =
    Ok {| ct := 0; running_idents := ["j2"]; deleted_idents := [] |} ∧
  (cleanup_dirs example_prefix "/tmp/run-*" [] dead_world).1 = Ok 0 ∧
  w_trace (cleanup_dirs example_prefix "/tmp/run-*" [] dead_world).2 =
    [EvGlob "/tmp/ansible_runner_registry_*_*"; EvPrint (MsgRunningJobs ["j2"]);
     EvKill 200 0; EvOpen "/tmp/run-B"; EvListdir "/tmp/run-B"; EvGlob "/tmp/run-*"] ∧
  w_fs (cleanup_dirs example_prefix "/tmp/run-*" [] dead_world).2 !! "/tmp/run-B" =
    Some (job_dir (line "200") ["j2"]).
Proof. repeat split; vm_compute; reflexivity. Qed.

(** ** A trailing or doubled comma yields the empty identifier *)

Lemma split_sep_tail (sep : ascii) (s rest : string) :
  "" ∈ PyStr.split sep rest →
  "" ∈ tail (PyStr.split sep (s +:+ String sep rest)).
Proof.
  intros Hrest. induction s as [|c s IH]; simpl.
  - unfold PyStr.eqc. rewrite Ascii.eqb_refl. exact Hrest.
  - destruct (PyStr.eqc c sep).
    + simpl. destruct (PyStr.split sep (s +:+ String sep rest)) as [|h t].
      * inversion IH.
      * right. exact IH.
    + destruct (PyStr.split sep (s +:+ String sep rest)) as [|h t].
      * inversion IH.
      * exact IH.
Qed.

Lemma elem_of_tail {A : Type} (x : A) (l : list A) : x ∈ tail l → x ∈ l.
Proof. destruct l; simpl; [auto|]. by right. Qed.

Lemma split_trailing_sep (sep : ascii) (s : string) :
  "" ∈ PyStr.split sep (s +:+ String sep EmptyString).
Proof. apply elem_of_tail, split_sep_tail. simpl. left. Qed.

Lemma split_doubled_sep (sep : ascii) (s rest : string) :
  "" ∈ PyStr.split sep (s +:+ String sep (String sep rest)).
Proof.
  apply elem_of_tail, split_sep_tail. simpl.
  unfold PyStr.eqc. rewrite Ascii.eqb_refl. left.
Qed.

Lemma append_sep_not_empty (s rest : string) (sep : ascii) :
  String.eqb (s +:+ String sep rest) "" = false.
Proof. destruct s; reflexivity. Qed.

Lemma comma_sep_parse_trailing_comma (vargs : options) (s : string) :
  arg_exclude_idents vargs = Some (s +:+ ",") →
  "" ∈ comma_sep_parse vargs arg_exclude_idents.
Proof.
  intros H. unfold comma_sep_parse, given. rewrite H.
  rewrite append_sep_not_empty. simpl. apply split_trailing_sep.
Qed.

Lemma comma_sep_parse_doubled_comma (vargs : options) (s rest : string) :
  arg_exclude_idents vargs = Some (s +:+ ",," +:+ rest) →
  "" ∈ comma_sep_parse vargs arg_exclude_idents.
Proof.
  intros H. unfold comma_sep_parse, given. rewrite H.
  change (",," +:+ rest) with (String ","%char (String ","%char rest)).
  rewrite append_sep_not_empty. simpl. apply split_doubled_sep.
Qed.

(** ** The theorems at concrete inputs *)

(** The scenario of the specification: [/tmp/run-*] selects [run-A] and
    [run-B]; the credential directory of the identifier that went into
    the deleted set is removed, the other one is kept. *)
Lemma credential_dir_removed_iff_witness :
  cleanup_dirs_scan "/tmp/run-*" [] demo_world =
    (Ok {| ct := 1; running_idents := ["j2"]; deleted_idents := ["j1"] |},
     (cleanup_dirs_scan "/tmp/run-*" [] demo_world).2) ∧
  matches (registry_auth_pattern example_prefix)
    (cleanup_dirs_scan "/tmp/run-*" [] demo_world).2 =
    ["/tmp/ansible_runner_registry_j1_a"; "/tmp/ansible_runner_registry_j2_b"] ∧
  ident_re_match example_prefix "/tmp/ansible_runner_registry_j1_a" = Some "j1" ∧
  ident_re_match example_prefix "/tmp/ansible_runner_registry_j2_b" = Some "j2" ∧
  returned (cleanup_dirs example_prefix "/tmp/run-*" [] demo_world).1 ∧
  ∃ new,
    w_trace (cleanup_dirs example_prefix "/tmp/run-*" [] demo_world).2 =
      new ++ w_trace (cleanup_dirs_scan "/tmp/run-*" [] demo_world).2 ∧
    EvRmtree "/tmp/ansible_runner_registry_j1_a" ∈ new ∧
    w_fs (cleanup_dirs example_prefix "/tmp/run-*" [] demo_world).2
      !! "/tmp/ansible_runner_registry_j1_a" = None ∧
    w_fs (cleanup_dirs example_prefix "/tmp/run-*" [] demo_world).2
      !! "/tmp/ansible_runner_registry_j2_b" =
    w_fs (cleanup_dirs_scan "/tmp/run-*" [] demo_world).2
      !! "/tmp/ansible_runner_registry_j2_b".
Proof.
  assert (Hscan : cleanup_dirs_scan "/tmp/run-*" [] demo_world =
            (Ok {| ct := 1; running_idents := ["j2"]; deleted_idents := ["j1"] |},
             (cleanup_dirs_scan "/tmp/run-*" [] demo_world).2))
    by (vm_compute; reflexivity).
  assert (Hm : matches (registry_auth_pattern example_prefix)
                 (cleanup_dirs_scan "/tmp/run-*" [] demo_world).2 =
               ["/tmp/ansible_runner_registry_j1_a"; "/tmp/ansible_runner_registry_j2_b"])
    by (vm_compute; reflexivity).
  assert (Hid1 : ident_re_match example_prefix "/tmp/ansible_runner_registry_j1_a" = Some "j1")
    by (vm_compute; reflexivity).
  assert (Hid2 : ident_re_match example_prefix "/tmp/ansible_runner_registry_j2_b" = Some "j2")
    by (vm_compute; reflexivity).
  assert (Hret : returned (cleanup_dirs example_prefix "/tmp/run-*" [] demo_world).1)
    by (exists 1; vm_compute; reflexivity).
  assert (Hne : beneath "/tmp/ansible_runner_registry_j1_a"
                  "/tmp/ansible_runner_registry_j2_b" = false)
    by (vm_compute; reflexivity).
  split; [exact Hscan|]. split; [exact Hm|]. split; [exact Hid1|]. split; [exact Hid2|].
  split; [exact Hret|].
  destruct (credential_dir_removed_iff example_prefix "/tmp/run-*" [] demo_world _ _ Hscan)
    as (new & T & H).
  exists new. split; [exact T|].
  assert (Hin1 : "/tmp/ansible_runner_registry_j1_a"
                   ∈ matches (registry_auth_pattern example_prefix)
                       (cleanup_dirs_scan "/tmp/run-*" [] demo_world).2)
    by (rewrite Hm; left).
  assert (Hin2 : "/tmp/ansible_runner_registry_j2_b"
                   ∈ matches (registry_auth_pattern example_prefix)
                       (cleanup_dirs_scan "/tmp/run-*" [] demo_world).2)
    by (rewrite Hm; right; left).
  destruct (H _ _ Hin1 Hid1) as (_ & _ & Hif).
  destruct (H _ _ Hin2 Hid2) as (_ & Hkeep & _).
  split; [|split].
  - apply Hif; [exact Hret|]. simpl. split; [left|]. split; [apply not_elem_of_nil|].
    intros Hj. apply list_elem_of_In in Hj. destruct Hj as [Hj|[]]. discriminate.
  - apply Hif; [exact Hret|]. simpl. split; [left|]. split; [apply not_elem_of_nil|].
    intros Hj. apply list_elem_of_In in Hj. destruct Hj as [Hj|[]]. discriminate.
  - apply Hkeep.
    + intros d Hd Hb. rewrite Hm in Hd. apply list_elem_of_In in Hd.
      destruct Hd as [<-|[<-|[]]]; [congruence|reflexivity].
    + simpl. intros [Hj _]. apply list_elem_of_In in Hj. destruct Hj as [Hj|[]].
      discriminate.
Defined.

(** The second scenario of the specification: [run-A] is excluded, so it
    is left alone although its path would otherwise be handled; it is no
    credential directory, so the second loop does not touch it either. *)
Lemma excluded_dir_is_skipped_witness :
  excluded ["run-A"] "/tmp/run-A" = true ∧
  w_fs (cleanup_dirs_scan "/tmp/run-*" ["run-A"] demo_world).2 !! "/tmp/run-A" =
    w_fs demo_world !! "/tmp/run-A" ∧
  ∃ new,
    w_trace (cleanup_dirs example_prefix "/tmp/run-*" ["run-A"] demo_world).2 =
      new ++ w_trace demo_world ∧
    (EvOpen "/tmp/run-A" ∉ new) ∧ (EvListdir "/tmp/run-A" ∉ new) ∧
    (EvRmtree "/tmp/run-A" ∉ new).
Proof.
  assert (Hex : excluded ["run-A"] "/tmp/run-A" = true) by (vm_compute; reflexivity).
  assert (Hid : ident_re_match example_prefix "/tmp/run-A" = None)
    by (vm_compute; reflexivity).
  destruct (excluded_dir_is_skipped example_prefix "/tmp/run-*" ["run-A"] "/tmp/run-A"
              demo_world Hex) as (_ & _ & Hfs & new & T & Ho & Hl & Hr).
  split; [exact Hex|]. split.
  - assert (Hm : matches "/tmp/run-*" demo_world = ["/tmp/run-A"; "/tmp/run-B"])
      by (vm_compute; reflexivity).
    apply Hfs. intros d Hd Hb. rewrite Hm in Hd.
    apply list_elem_of_In in Hd.
    destruct Hd as [<-|[<-|[]]]; [reflexivity|].
    assert (Hn : beneath "/tmp/run-B" "/tmp/run-A" = false) by (vm_compute; reflexivity).
    congruence.
  - exists new. split; [exact T|]. split; [exact Ho|]. split; [exact Hl|].
    intros Hin. destruct (Hr Hin) as (s & w1 & ident & _ & _ & Hid' & _). congruence.
Defined.

(** C4 as stated fails: with [--exclude-idents=job1] and the pattern
    [/tmp/*], the credential directory of the finished job [job10] is
    selected by the pattern and contains [job1], so the first loop skips
    it; the second loop compares whole identifiers, finds [job10] among
    the deleted ones and not in the exclusion list, and removes the
    directory. *)
Lemma excluded_dir_removed_as_credential_dir :
  matches "/tmp/*" prefix_world = ["/tmp/ansible_runner_registry_job10_a"; "/tmp/run-E"] ∧
  excluded ["job1"] "/tmp/ansible_runner_registry_job10_a" = true ∧
  w_fs prefix_world !! "/tmp/ansible_runner_registry_job10_a" = Some plain_dir ∧
  (cleanup_dirs_scan "/tmp/*" ["job1"] prefix_world).1 =
    Ok {| ct := 1; running_idents := []; deleted_idents := ["job10"] |} ∧
  ident_re_match example_prefix "/tmp/ansible_runner_registry_job10_a" = Some "job10" ∧
  (cleanup_dirs example_prefix "/tmp/*" ["job1"] prefix_world).1 = Ok 1 ∧
  w_trace (cleanup_dirs example_prefix "/tmp/*" ["job1"] prefix_world).2 =
    [EvPrint (MsgRemovedAuthDir "/tmp/ansible_runner_registry_job10_a");
     EvRmtree "/tmp/ansible_runner_registry_job10_a";
     EvGlob "/tmp/ansible_runner_registry_*_*";
     EvPrint (MsgRemovedDirs 1 "/tmp/*");
     EvRmtree "/tmp/run-E"; EvOpen "/tmp/run-E"; EvListdir "/tmp/run-E";
     EvGlob "/tmp/*"] ∧
  w_fs (cleanup_dirs example_prefix "/tmp/*" ["job1"] prefix_world).2
    !! "/tmp/ansible_runner_registry_job10_a" = None.
Proof. repeat split; vm_compute; reflexivity. Qed.

(** Spec scenario: one requested tag with matches, one without. *)
Lemma cleanup_images_counts_untagged_witness :
  cleanup_images ["app"; "missing"] "podman" demo_world =
    (Ok 4, (cleanup_images ["app"; "missing"] "podman" demo_world).2) ∧
  ∃ per_tag,
    Forall2 (tag_runs "podman") ["app"; "missing"] per_tag ∧
    replayed (w_exec demo_world) (w_trace demo_world) (concat per_tag) ∧
    w_trace (cleanup_images ["app"; "missing"] "podman" demo_world).2 =
      [EvPrint (MsgRemovedImages 4)] ++ reverse (concat per_tag) ++ w_trace demo_world ∧
    4 = untagged_total (concat per_tag).
Proof.
  assert (H : cleanup_images ["app"; "missing"] "podman" demo_world =
              (Ok 4, (cleanup_images ["app"; "missing"] "podman" demo_world).2))
    by (vm_compute; reflexivity).
  split; [exact H|].
  exact (proj1 (cleanup_images_counts_untagged ["app"; "missing"] "podman" demo_world) _ _ H).
Defined.

Lemma prune_images_changed_witness :
  run_command ["podman"; "image"; "prune"; "-f"] demo_world =
    (Ok "Total reclaimed space: 0B",
     (run_command ["podman"; "image"; "prune"; "-f"] demo_world).2) ∧
  ∃ b w',
    prune_images "podman" demo_world = (Ok b, w') ∧
    (b = false ↔
     "Total reclaimed space: 0B" = "" ∨
     "Total reclaimed space: 0B" = "Total reclaimed space: 0B") ∧
    (b = true ↔
     ¬ ("Total reclaimed space: 0B" = "" ∨
        "Total reclaimed space: 0B" = "Total reclaimed space: 0B")).
Proof.
  assert (Hrun : run_command ["podman"; "image"; "prune"; "-f"] demo_world =
            (Ok "Total reclaimed space: 0B",
             (run_command ["podman"; "image"; "prune"; "-f"] demo_world).2))
    by (vm_compute; reflexivity).
  split; [exact Hrun|].
  exact (prune_images_changed "podman" demo_world _ _ Hrun).
Defined.

Lemma malformed_pid_is_fatal_witness :
  e_pid (lookup_entry "/tmp/run-C" odd_world) = Ok (line "not a pid") ∧
  PyStr.int (PyStr.readline (line "not a pid")) = None ∧
  is_alive "/tmp/run-C" odd_world = (Raise ValueError, log (EvOpen "/tmp/run-C") odd_world) ∧
  cleanup_dirs example_prefix "/tmp/run-C" [] odd_world =
    (Raise ValueError,
     log (EvOpen "/tmp/run-C") (log (EvListdir "/tmp/run-C")
       (log (EvGlob "/tmp/run-C") odd_world))).
Proof.
  assert (Hpid : e_pid (lookup_entry "/tmp/run-C" odd_world) = Ok (line "not a pid"))
    by (vm_compute; reflexivity).
  assert (Hint : PyStr.int (PyStr.readline (line "not a pid")) = None)
    by (vm_compute; reflexivity).
  assert (Hm : matches "/tmp/run-C" odd_world = ["/tmp/run-C"])
    by (vm_compute; reflexivity).
  destruct (malformed_pid_is_fatal example_prefix "/tmp/run-C" odd_world _ Hpid Hint)
    as (H1 & _ & H3).
  split; [exact Hpid|]. split; [exact Hint|]. split; [exact H1|].
  apply (H3 "/tmp/run-C" [] [] Hm); [reflexivity|].
  exists ["j3"]. vm_compute. reflexivity.
Defined.

Lemma missing_pid_file_not_alive_witness :
  e_pid (lookup_entry "/tmp/run-D" odd_world) = Raise FileNotFoundError ∧
  is_OSError FileNotFoundError = true ∧
  is_alive "/tmp/run-D" odd_world = (Ok (PyBool false), log (EvOpen "/tmp/run-D") odd_world) ∧
  scan_dir [] "/tmp/run-D" {| ct := 0; running_idents := []; deleted_idents := [] |} odd_world =
    (_ ← rmtree "/tmp/run-D";
     mret {| ct := 0 + 1; running_idents := []; deleted_idents := [] ++ [] |})
      (log (EvOpen "/tmp/run-D") (log (EvListdir "/tmp/run-D") odd_world)).
Proof.
  assert (Hpid : e_pid (lookup_entry "/tmp/run-D" odd_world) = Raise FileNotFoundError)
    by (vm_compute; reflexivity).
  destruct (missing_pid_file_not_alive "/tmp/run-D" odd_world _ Hpid eq_refl) as [H1 H2].
  split; [exact Hpid|]. split; [reflexivity|]. split; [exact H1|].
  apply (H2 [] {| ct := 0; running_idents := []; deleted_idents := [] |} []);
    [reflexivity|vm_compute; reflexivity].
Defined.

(** The option [--exclude-idents=j9,] on the world of the first scenario:
    nothing is removed. *)
Lemma empty_ident_skips_everything_witness :
  "" ∈ comma_sep_parse
         {| arg_file_pattern := Some "/tmp/run-*"; arg_exclude_idents := Some "j9,";
            arg_remove_images := None; arg_image_prune := false;
            arg_process_isolation_executable := "podman" |} arg_exclude_idents ∧
  w_fs (cleanup_dirs example_prefix "/tmp/run-*" ["j9"; ""] demo_world).2 = w_fs demo_world ∧
  (cleanup_dirs example_prefix "/tmp/run-*" ["j9"; ""] demo_world).1 = Ok 0.
Proof.
  assert (Hin : "" ∈ ["j9"; ""]) by (right; left).
  destruct (empty_ident_skips_everything example_prefix "/tmp/run-*" ["j9"; ""] demo_world Hin)
    as (_ & Hfs & _ & _ & Hok).
  split; [exact Hin|]. split; [exact Hfs|].
  assert (Hm : matches (registry_auth_pattern example_prefix) demo_world =
               ["/tmp/ansible_runner_registry_j1_a"; "/tmp/ansible_runner_registry_j2_b"])
    by (vm_compute; reflexivity).
  assert (H1 : ident_re_match example_prefix "/tmp/ansible_runner_registry_j1_a" = Some "j1")
    by (vm_compute; reflexivity).
  assert (H2 : ident_re_match example_prefix "/tmp/ansible_runner_registry_j2_b" = Some "j2")
    by (vm_compute; reflexivity).
  apply Hok. intros dir Hdir. rewrite Hm in Hdir.
  apply list_elem_of_In in Hdir.
  destruct Hdir as [<-|[<-|[]]]; congruence.
Defined.

(** No option, and all three options, on the world of the first
    scenario. *)
Lemma run_cleanup_runs_what_is_asked_witness :
  run_cleanup example_prefix no_options demo_world =
    (Ok tt, log (EvPrint (MsgChanged false)) demo_world) ∧
  run_cleanup example_prefix all_options demo_world =
    (Ok tt,
     log (EvPrint (MsgChanged true))
       (prune_images "podman"
          (cleanup_images ["app"] "podman"
             (cleanup_dirs example_prefix "/tmp/run-*" [] demo_world).2).2).2).
Proof.
  split.
  - apply (run_cleanup_runs_what_is_asked example_prefix no_options demo_world);
      reflexivity.
  - apply (proj1 (proj2 (proj2
             (run_cleanup_runs_what_is_asked example_prefix all_options demo_world)))
             1 4 false
             (cleanup_dirs example_prefix "/tmp/run-*" [] demo_world).2
             (cleanup_images ["app"] "podman"
                (cleanup_dirs example_prefix "/tmp/run-*" [] demo_world).2).2);
      vm_compute; reflexivity.
Defined.

(** ** The runs in full *)

Example demo_cleanup_dirs :
  (cleanup_dirs example_prefix "/tmp/run-*" [] demo_world).1 = Ok 1 ∧
  w_trace (cleanup_dirs example_prefix "/tmp/run-*" [] demo_world).2 =
    [EvPrint (MsgRemovedAuthDir "/tmp/ansible_runner_registry_j1_a");
     EvRmtree "/tmp/ansible_runner_registry_j1_a";
     EvGlob "/tmp/ansible_runner_registry_*_*";
     EvPrint (MsgRunningJobs ["j2"]);
     EvPrint (MsgRemovedDirs 1 "/tmp/run-*");
     EvKill 200 0; EvOpen "/tmp/run-B"; EvListdir "/tmp/run-B";
     EvRmtree "/tmp/run-A"; EvKill 100 0; EvOpen "/tmp/run-A"; EvListdir "/tmp/run-A";
     EvGlob "/tmp/run-*"] ∧
  (map_to_list (w_fs (cleanup_dirs example_prefix "/tmp/run-*" [] demo_world).2)).*1 =
    ["/tmp/ansible_runner_registry_j2_b"; "/tmp/run-B"].
Proof. repeat split; vm_compute; reflexivity. Qed.

Example demo_cleanup_images :
  (cleanup_images ["app"; "missing"] "podman" demo_world).1 = Ok 4 ∧
  map (λ ev, match ev with EvRun cmd _ => cmd | _ => [] end)
    (w_trace (cleanup_images ["app"; "missing"] "podman" demo_world).2) =
    [[];
     ["podman"; "images"; images_format; "missing"];
     ["podman"; "rmi"; "repo/app:v1"; "-f"];
     ["podman"; "rmi"; "repo/app:latest"; "-f"];
     ["podman"; "images"; images_format; "app"]].
Proof. repeat split; vm_compute; reflexivity. Qed.

Example demo_ident_re_match :
  ident_re_match example_prefix "/tmp/ansible_runner_registry_a_b_c" = Some "a_b" ∧
  ident_re_match example_prefix "/tmp/ansible_runner_registry__c" = Some "" ∧
  ident_re_match example_prefix "/tmp/ansible_runner_registry_c" = None ∧
  ident_re_match example_prefix (line "/tmp/ansible_runner_registry_a_b") = Some "a" ∧
  ident_re_match example_prefix (line "/tmp/ansible_runner_registry_a" +:+ "b_c") = None.
Proof. repeat split; vm_compute; reflexivity. Qed.

Example demo_int :
  PyStr.int (line "  12_3 ") = Some 123 ∧ PyStr.int "-4" = Some (-4) ∧
  PyStr.int "+7" = Some 7 ∧ PyStr.int "007" = Some 7 ∧
  PyStr.int "" = None ∧ PyStr.int "1__2" = None ∧ PyStr.int "_1" = None ∧
  PyStr.int "12a" = None ∧ PyStr.int "- 4" = None.
Proof. repeat split; vm_compute; reflexivity. Qed.

(** [int] is stricter than [str.strip]: the separators 0x1c-0x1f around a
    number are not white space for it, so such a pid line is malformed. *)
Example demo_int_separators :
  PyStr.strip (String (ascii_of_nat 28) ("200" +:+ String (ascii_of_nat 31) (line "")))
    = "200" ∧
  PyStr.int (String (ascii_of_nat 28) ("200" +:+ String (ascii_of_nat 31) (line "")))
    = None ∧
  PyStr.int (String (ascii_of_nat 9) (" 200" +:+ String (ascii_of_nat 13) (line "")))
    = Some 200.
Proof. repeat split; vm_compute; reflexivity. Qed.

(** * Further properties *)

Lemma eqc_eq (a b : ascii) : PyStr.eqc a b = true ↔ a = b.
Proof. apply Ascii.eqb_eq. Qed.

Lemma str_join_cons (sep x y : string) (l : list string) :
  str_join sep (x :: y :: l) = x +:+ sep +:+ str_join sep (y :: l).
Proof. reflexivity. Qed.

Lemma str_join_split (sep : ascii) (s : string) :
  str_join (String sep EmptyString) (PyStr.split sep s) = s.
Proof.
  induction s as [|c s IH]; [reflexivity|].
  simpl PyStr.split. destruct (PyStr.eqc c sep) eqn:E.
  - apply eqc_eq in E. subst c.
    destruct (PyStr.split sep s) as [|h t] eqn:Hs; [by apply split_not_nil in Hs|].
    rewrite str_join_cons, IH. reflexivity.
  - destruct (PyStr.split sep s) as [|h t] eqn:Hs; [by apply split_not_nil in Hs|].
    destruct t as [|h' t].
    + simpl in *. by rewrite IH.
    + rewrite str_join_cons in IH |- *. rewrite <- IH. reflexivity.
Qed.

Lemma split_no_sep (sep : ascii) (s : string) :
  Forall (λ x, has_char sep x = false) (PyStr.split sep s).
Proof.
  induction s as [|c s IH]; simpl.
  - by constructor.
  - destruct (PyStr.eqc c sep) eqn:E.
    + by constructor.
    + destruct (PyStr.split sep s) as [|h t]; [repeat constructor; simpl; by rewrite E|].
      inversion IH; subst. constructor; [simpl; by rewrite E|done].
Qed.

Lemma split_length (sep : ascii) (s : string) :
  length (PyStr.split sep s) = S (count_char sep s).
Proof.
  induction s as [|c s IH]; simpl; [reflexivity|].
  destruct (PyStr.eqc c sep).
  - simpl. by rewrite IH.
  - destruct (PyStr.split sep s) as [|h t]; simpl in *; lia.
Qed.

(** X1.  Joining what [comma_sep_parse] returns with commas gives the option
    back (the empty string for an option that is missing or empty); no
    element contains a comma, elements are kept as they are, empty ones
    included; and a given option yields one element more than it has
    commas. *)
Theorem comma_sep_parse_round_trip (vargs : options) (key : options → option string) :
  str_join "," (comma_sep_parse vargs key) = default "" (key vargs) ∧
  Forall (λ x, has_char ","%char x = false) (comma_sep_parse vargs key) ∧
  (given (key vargs) = true →
   length (comma_sep_parse vargs key) = S (count_char ","%char (default "" (key vargs)))) ∧
  (given (key vargs) = false → comma_sep_parse vargs key = []).
Proof.
  unfold comma_sep_parse. destruct (given (key vargs)) eqn:G.
  - split; [apply str_join_split|]. split; [apply split_no_sep|].
    split; [intros _; apply split_length|discriminate].
  - split.
    + destruct (key vargs) as [s|]; [|reflexivity]. simpl in *.
      destruct s; [reflexivity|discriminate].
    + split; [by constructor|]. split; [discriminate|reflexivity].
Qed.

(** ** The identifier in the name of a credential directory *)

Lemma append_cons (x : ascii) (a b : string) : String x a +:+ b = String x (a +:+ b).
Proof. reflexivity. Qed.

Lemma append_empty (b : string) : EmptyString +:+ b = b.
Proof. reflexivity. Qed.

Lemma append_assoc (a b c : string) : (a +:+ b) +:+ c = a +:+ b +:+ c.
Proof.
  induction a as [|x a IH]; [reflexivity|]. rewrite !append_cons, IH. reflexivity.
Qed.

Lemma strip_prefix_app (p s : string) : PyStr.strip_prefix p (p +:+ s) = Some s.
Proof.
  induction p as [|a p IH]; [by destruct s|].
  rewrite append_cons. simpl. unfold PyStr.eqc. by rewrite Ascii.eqb_refl.
Qed.

Lemma strip_prefix_Some (p s r : string) : PyStr.strip_prefix p s = Some r → s = p +:+ r.
Proof.
  revert s. induction p as [|a p IH]; intros s H.
  - destruct s; simpl in H; by inversion H.
  - destruct s as [|b s]; simpl in H; [discriminate|].
    destruct (PyStr.eqc a b) eqn:E; [|discriminate].
    apply eqc_eq in E. subst b. rewrite append_cons. f_equal. by apply IH.
Qed.

Lemma single_line_Some (s l : string) :
  single_line s = Some l →
  has_char PyStr.newline l = false ∧
  (s = l ∨ s = l +:+ String PyStr.newline EmptyString).
Proof.
  revert l. induction s as [|c s IH]; intros l H; simpl in H.
  - inversion H. auto.
  - destruct (PyStr.eqc c PyStr.newline) eqn:E.
    + destruct s; [|discriminate]. inversion H. apply eqc_eq in E. subst c. auto.
    + destruct (single_line s) as [l'|]; [|discriminate]. inversion H; subst l.
      destruct (IH l' eq_refl) as [Hn [->| ->]]; simpl; rewrite E; auto.
Qed.

Lemma single_line_plain (s : string) :
  has_char PyStr.newline s = false → single_line s = Some s.
Proof.
  induction s as [|c s IH]; simpl; [reflexivity|].
  intros [E H]%orb_false_elim. rewrite E, IH by exact H. reflexivity.
Qed.

Lemma single_line_final_newline (s : string) :
  has_char PyStr.newline s = false →
  single_line (s +:+ String PyStr.newline EmptyString) = Some s.
Proof.
  induction s as [|c s IH].
  - intros _. reflexivity.
  - intros H. simpl in H. apply orb_false_elim in H as [E H].
    rewrite append_cons. simpl. rewrite E, IH by exact H. reflexivity.
Qed.

Lemma rsplit_underscore_Some (s a b : string) :
  rsplit_underscore s = Some (a, b) →
  s = a +:+ String "_"%char b ∧ has_char "_"%char b = false.
Proof.
  revert a. induction s as [|c s IH]; intros a H; simpl in H; [discriminate|].
  destruct (rsplit_underscore s) as [[a' b']|] eqn:E.
  - inversion H; subst. destruct (IH a' eq_refl) as [-> Hb]. auto.
  - destruct (PyStr.eqc c "_"%char) eqn:Ec; [|discriminate].
    inversion H; subst. apply eqc_eq in Ec. subst c. split; [reflexivity|].
    clear -E. induction b as [|x b IHb]; [reflexivity|].
    simpl in E. destruct (rsplit_underscore b) as [[? ?]|]; [discriminate|].
    simpl. destruct (PyStr.eqc x "_"%char); [discriminate|]. by apply IHb.
Qed.

Lemma rsplit_underscore_None (s : string) :
  has_char "_"%char s = false → rsplit_underscore s = None.
Proof.
  induction s as [|c s IH]; simpl; [reflexivity|].
  intros [E H]%orb_false_elim. by rewrite IH, E.
Qed.

Lemma rsplit_underscore_app (a b : string) :
  has_char "_"%char b = false →
  rsplit_underscore (a +:+ String "_"%char b) = Some (a, b).
Proof.
  intros Hb. induction a as [|c a IH].
  - rewrite append_empty. simpl. by rewrite rsplit_underscore_None.
  - rewrite append_cons. simpl. by rewrite IH.
Qed.

Lemma has_char_app (c : ascii) (a b : string) :
  has_char c (a +:+ b) = has_char c a || has_char c b.
Proof.
  induction a as [|x a IH]; [reflexivity|].
  rewrite append_cons. simpl. rewrite IH. by rewrite orb_assoc.
Qed.

Section Ident.

Variable registry_auth_prefix : string.

(** X2.  [ident_re.match(dir)] succeeds with the group [ident] exactly when
    [dir] is [/tmp/], the prefix, [ident], an underscore and a suffix
    without underscore, on one line (a final newline is tolerated): the
    identifier is all that stands between the prefix and the last
    underscore, underscores included. *)
Theorem ident_re_match_last_underscore (dir ident : string) :
  ident_re_match registry_auth_prefix dir = Some ident ↔
  ∃ suffix,
    has_char "_"%char suffix = false ∧
    has_char PyStr.newline ident = false ∧
    has_char PyStr.newline suffix = false ∧
    (dir = "/tmp/" +:+ registry_auth_prefix +:+ ident +:+ String "_"%char suffix ∨
     dir = "/tmp/" +:+ registry_auth_prefix +:+ ident +:+ String "_"%char suffix
             +:+ String PyStr.newline EmptyString).
Proof.
  unfold ident_re_match. split.
  - intros H.
    destruct (PyStr.strip_prefix ("/tmp/" +:+ registry_auth_prefix) dir) as [rest|] eqn:E1;
      [|discriminate].
    simpl in H. destruct (single_line rest) as [l|] eqn:E2; [|discriminate].
    simpl in H. destruct (rsplit_underscore l) as [[a b]|] eqn:E3; [|discriminate].
    simpl in H. inversion H; subst a.
    apply strip_prefix_Some in E1. apply single_line_Some in E2 as [Hn Hrest].
    apply rsplit_underscore_Some in E3 as [-> Hb].
    rewrite has_char_app in Hn. apply orb_false_elim in Hn as [Hn1 Hn2].
    simpl in Hn2.
    exists b. repeat split; auto.
    destruct Hrest as [-> | ->]; [left|right]; rewrite E1.
    + change ("/tmp/" +:+ registry_auth_prefix +:+ ident +:+ String "_" b)
        with ("/tmp/" +:+ (registry_auth_prefix +:+ (ident +:+ String "_" b))).
      change (("/tmp/" +:+ registry_auth_prefix) +:+ ident +:+ String "_" b)
        with (("/tmp/" +:+ registry_auth_prefix) +:+ (ident +:+ String "_" b)).
      by rewrite append_assoc.
    + by rewrite !append_assoc.
  - intros (suffix & Hu & Hn1 & Hn2 & Hdir).
    assert (Hl : has_char PyStr.newline (ident +:+ String "_"%char suffix) = false).
    { rewrite has_char_app, Hn1. simpl. by rewrite Hn2. }
    destruct Hdir as [-> | ->].
    + replace ("/tmp/" +:+ registry_auth_prefix +:+ ident +:+ String "_" suffix)
        with (("/tmp/" +:+ registry_auth_prefix) +:+ (ident +:+ String "_" suffix))
        by (by rewrite append_assoc).
      rewrite strip_prefix_app. simpl. rewrite single_line_plain by exact Hl. simpl.
      by rewrite rsplit_underscore_app.
    + replace ("/tmp/" +:+ registry_auth_prefix +:+ ident +:+ String "_" suffix
                 +:+ String PyStr.newline "")
        with (("/tmp/" +:+ registry_auth_prefix) +:+
              ((ident +:+ String "_" suffix) +:+ String PyStr.newline ""))
        by (by rewrite !append_assoc).
      rewrite strip_prefix_app. simpl. rewrite single_line_final_newline by exact Hl. simpl.
      by rewrite rsplit_underscore_app.
Qed.

End Ident.

(** ** Output that is only white space *)

Lemma lstrip_all (p : ascii → bool) (s : string) :
  all_chars p s = true → PyStr.lstrip_by p s = EmptyString.
Proof.
  induction s as [|c s IH]; simpl; [reflexivity|].
  intros [E H]%andb_prop. rewrite E. by apply IH.
Qed.

Lemma rstrip_empty_all (p : ascii → bool) (s : string) :
  PyStr.rstrip_by p s = EmptyString → all_chars p s = true.
Proof.
  induction s as [|c s IH]; simpl; [reflexivity|].
  destruct (PyStr.rstrip_by p s); [|discriminate].
  destruct (p c); [|discriminate]. intros _. by rewrite IH.
Qed.

Lemma lstrip_head (p : ascii → bool) (s : string) :
  match PyStr.lstrip_by p s with
  | EmptyString => all_chars p s = true
  | String c _ => p c = false
  end.
Proof.
  induction s as [|c s IH]; simpl; [reflexivity|].
  destruct (p c) eqn:E; simpl; [|exact E].
  destruct (PyStr.lstrip_by p s); auto.
Qed.

Lemma strip_empty_iff (s : string) :
  PyStr.strip s = EmptyString ↔ all_chars PyStr.isspace s = true.
Proof.
  unfold PyStr.strip, PyStr.strip_by. split.
  - intros H. apply rstrip_empty_all in H.
    pose proof (lstrip_head PyStr.isspace s) as Hh.
    destruct (PyStr.lstrip_by PyStr.isspace s) as [|c t]; [exact Hh|].
    simpl in H. rewrite Hh in H. discriminate.
  - intros H. by rewrite lstrip_all.
Qed.

(** X3.  Standard output that consists of white space only is taken for no
    output at all: [prune_images] then returns [False] without printing,
    and [cleanup_images] takes the tag to have no image and runs no
    [rmi] for it. *)
Theorem blank_output_is_no_output (runtime image_tag : string) (rm_ct : Z)
    (w : world) (out : string) :
  all_chars PyStr.isspace out = true →
  (w_exec w (w_trace w) [runtime; "image"; "prune"; "-f"] = completed 0 out →
   prune_images runtime w =
     (Ok false, log (EvRun [runtime; "image"; "prune"; "-f"] (completed 0 out)) w)) ∧
  (w_exec w (w_trace w) [runtime; "images"; images_format; image_tag] = completed 0 out →
   remove_image runtime image_tag rm_ct w =
     (Ok rm_ct, log (EvRun [runtime; "images"; images_format; image_tag] (completed 0 out)) w)).
Proof.
  intros Hblank. apply strip_empty_iff in Hblank. split; intros Hout.
  - unfold prune_images. rewrite bind_unfold, (run_command_returns _ _ _ Hout), Hblank.
    reflexivity.
  - unfold remove_image. rewrite bind_unfold, (run_command_returns _ _ _ Hout), Hblank.
    reflexivity.
Qed.

(** ** What the liveness check answers, and what it leaves alone *)

(** [os.kill] raises something that is not an [OSError]: nothing catches
    it. *)
Lemma is_alive_signal_error (dir : string) (w : world) (text : string) (pid : Z) (e : exn) :
  e_pid (lookup_entry dir w) = Ok text →
  PyStr.int (PyStr.readline text) = Some pid →
  w_kill w pid = Some e → is_OSError e = false →
  is_alive dir w = (Raise e, log (EvKill pid SIG_DFL) (log (EvOpen dir) w)).
Proof.
  intros He Hint Hk Hos. unfold is_alive, try_except, os_kill.
  rewrite !bind_unfold, open_pid_eq, He, Hint. simpl.
  rewrite !bind_unfold. simpl. rewrite Hk, Hos. reflexivity.
Qed.

(** X4.  When [is_alive] returns, its answer counts as true in a condition
    exactly when the pid file was read, its first line is an integer and
    [os.kill] raised an [OSError] for that process id.  Whatever the
    outcome, it changes nothing in the file system, and the only signal it
    sends is signal 0. *)
Theorem is_alive_true_iff_kill_raises (dir : string) (w : world) :
  (∀ v w',
     is_alive dir w = (Ok v, w') →
     (truthy v = true ↔
      ∃ text pid e,
        e_pid (lookup_entry dir w) = Ok text ∧
        PyStr.int (PyStr.readline text) = Some pid ∧
        w_kill w pid = Some e ∧ is_OSError e = true)) ∧
  w_fs (is_alive dir w).2 = w_fs w ∧
  ∃ new, w_trace (is_alive dir w).2 = new ++ w_trace w ∧
         ∀ ev, ev ∈ new → ev = EvOpen dir ∨ ∃ pid, ev = EvKill pid 0.
Proof.
  assert (F : frame (λ ev, ev = EvOpen dir ∨ ∃ pid, ev = EvKill pid 0) w (is_alive dir w).2).
  { apply emits_is_alive; [by left|intros pid; right; by exists pid]. }
  split; [|split].
  - intros v w' H.
    destruct (e_pid (lookup_entry dir w)) as [text|e] eqn:Hpid.
    + destruct (PyStr.int (PyStr.readline text)) as [pid|] eqn:Hint.
      * destruct (w_kill w pid) as [e|] eqn:Hk.
        -- destruct (is_OSError e) eqn:Hos.
           ++ rewrite (is_alive_signal_refused _ _ _ _ _ Hpid Hint Hk Hos) in H.
              inversion H; subst. split; [|reflexivity].
              intros _. exists text, pid, e. auto.
           ++ rewrite (is_alive_signal_error _ _ _ _ _ Hpid Hint Hk Hos) in H.
              discriminate.
        -- rewrite (is_alive_signal_sent _ _ _ _ Hpid Hint Hk) in H.
           inversion H; subst. split; [discriminate|].
           intros (t & p & e & Ht & Hp & He & _).
           inversion Ht; subst t. rewrite Hint in Hp. inversion Hp; subst p.
           rewrite Hk in He. discriminate.
      * rewrite (is_alive_malformed _ _ _ Hpid Hint) in H. discriminate.
    + destruct (is_OSError e) eqn:Hos.
      * rewrite (is_alive_no_pidfile _ _ _ Hpid Hos) in H. inversion H; subst.
        split; [discriminate|]. intros (t & p & e' & Ht & _). discriminate.
      * rewrite (is_alive_read_error _ _ _ Hpid Hos) in H. discriminate.
  - eapply frame_fs; [exact F|]. intros ev [->|[pid ->]]; reflexivity.
  - exact (frame_not_in _ _ _ F).
Qed.

(** ** The artifacts listing *)

Lemma get_idents_outcome (dir : string) (w : world) :
  _get_idents_from_pdd dir w =
  (match e_artifacts (lookup_entry dir w) with
   | Ok ids => Ok ids
   | Raise e => if is_FileNotFoundError e then Ok [] else Raise e
   end, log (EvListdir dir) w).
Proof.
  unfold _get_idents_from_pdd, try_except, listdir_artifacts.
  destruct (e_artifacts (lookup_entry dir w)) as [ids|e]; [reflexivity|].
  destruct (is_FileNotFoundError e); reflexivity.
Qed.

Section Listing.

Variable registry_auth_prefix : string.

(** X5.  When [os.listdir] fails on the artifacts of a directory with
    anything but [FileNotFoundError] (the pattern selected a regular file,
    or the directory cannot be read), the error leaves the loop body
    before the pid file is opened, and [cleanup_dirs] with it: no signal is
    sent and nothing is removed. *)
Theorem listing_error_is_fatal (dir : string) (w : world) (e : exn)
    (exclude_idents : list string) :
  e_artifacts (lookup_entry dir w) = Raise e →
  is_FileNotFoundError e = false →
  excluded exclude_idents dir = false →
  (∀ s, scan_dir exclude_idents dir s w = (Raise e, log (EvListdir dir) w)) ∧
  (∀ pattern rest,
     matches pattern w = dir :: rest →
     cleanup_dirs registry_auth_prefix pattern exclude_idents w =
       (Raise e, log (EvListdir dir) (log (EvGlob pattern) w))).
Proof.
  intros Hart Hnf Hex.
  assert (Hbody : ∀ w0 s, e_artifacts (lookup_entry dir w0) = Raise e →
            scan_dir exclude_idents dir s w0 = (Raise e, log (EvListdir dir) w0)).
  { intros w0 s H0. rewrite scan_dir_not_excluded by exact Hex.
    apply bind_raise. rewrite get_idents_outcome, H0, Hnf. reflexivity. }
  split.
  - intros s. by apply Hbody.
  - intros pattern rest Hm. unfold cleanup_dirs. apply bind_raise.
    unfold cleanup_dirs_scan, iglob. rewrite bind_unfold, Hm, for_each_cons.
    apply bind_raise. apply Hbody. exact Hart.
Qed.

(** X6.  A directory without an artifacts directory has no identifiers: the
    loop body goes on to the liveness check with the empty list, so that
    the directory can still be removed and counted while the lists of
    identifiers stay as they are. *)
Theorem missing_artifacts_no_idents (dir : string) (w : world)
    (exclude_idents : list string) (s : scan) :
  e_artifacts (lookup_entry dir w) = Raise FileNotFoundError →
  excluded exclude_idents dir = false →
  _get_idents_from_pdd dir w = (Ok [], log (EvListdir dir) w) ∧
  ∀ s' w', scan_dir exclude_idents dir s w = (Ok s', w') →
    running_idents s' = running_idents s ∧ deleted_idents s' = deleted_idents s ∧
    (ct s' = ct s ∨ (ct s' = ct s + 1 ∧ w_fs w' !! dir = None)).
Proof.
  intros Hart Hex.
  assert (Hget : _get_idents_from_pdd dir w = (Ok [], log (EvListdir dir) w)).
  { rewrite get_idents_outcome, Hart. reflexivity. }
  split; [exact Hget|].
  intros s' w' H. rewrite scan_dir_not_excluded in H by exact Hex.
  rewrite (bind_ok _ _ _ _ _ Hget) in H. cbv beta in H. rewrite bind_unfold in H.
  destruct (is_alive dir (log (EvListdir dir) w)) as [[v|e] w1]; [|discriminate].
  destruct (truthy v).
  - inversion H; subst. simpl. rewrite app_nil_r. auto.
  - rewrite bind_unfold in H. unfold rmtree in H.
    destruct (e_rmtree (lookup_entry dir w1)); [discriminate|].
    inversion H; subst. simpl. rewrite app_nil_r. repeat split; auto.
    right. split; [reflexivity|].
    apply map_lookup_filter_None_2. right. intros x _. simpl.
    unfold beneath. rewrite String.eqb_refl. discriminate.
Qed.

End Listing.

(** ** Counting the removed directories *)

Lemma count_rmtree_app (evs1 evs2 : list event) :
  count_rmtree (evs1 ++ evs2) = count_rmtree evs1 + count_rmtree evs2.
Proof. unfold count_rmtree. rewrite filter_app, length_app. lia. Qed.

Lemma count_rmtree_nonneg (evs : list event) : 0 ≤ count_rmtree evs.
Proof. unfold count_rmtree. lia. Qed.

Lemma count_rmtree_none (evs : list event) :
  (∀ ev, ev ∈ evs → is_rmtree ev = false) → count_rmtree evs = 0.
Proof.
  intros H. unfold count_rmtree. induction evs as [|ev evs IH]; [reflexivity|].
  rewrite filter_cons. destruct (decide (is_rmtree ev = true)) as [E|E].
  - rewrite (H ev) in E by left. discriminate.
  - apply IH. intros ev' Hev'. apply H. by right.
Qed.

Lemma count_rmtree_zero (evs : list event) :
  count_rmtree evs = 0 → ∀ ev, ev ∈ evs → is_rmtree ev = false.
Proof.
  unfold count_rmtree. induction evs as [|ev evs IH]; intros H ev' Hev'.
  - inversion Hev'.
  - rewrite filter_cons in H. destruct (decide (is_rmtree ev = true)) as [E|E].
    + simpl in H. lia.
    + apply elem_of_cons in Hev' as [->|Hev']; [by destruct (is_rmtree ev)|by apply IH].
Qed.

Lemma frame_no_rmtree (P : event → Prop) (w w' : world) :
  frame P w w' → (∀ ev, P ev → is_rmtree ev = false) →
  ∃ new, w_trace w' = new ++ w_trace w ∧ count_rmtree new = 0 ∧ w_fs w' = w_fs w.
Proof.
  intros F HP. pose proof (frame_fs _ _ _ F HP) as Hfs.
  destruct (frame_not_in _ _ _ F) as (new & T & A).
  exists new. repeat split; auto. apply count_rmtree_none. auto.
Qed.

(** One round of the first loop: the counter grows by the number of
    [rmtree] calls of the round, which is 0 or 1, and the list of deleted
    identifiers only changes when there is one. *)
Lemma scan_dir_counts (exclude_idents : list string) (dir : string) (s s' : scan)
    (w w' : world) :
  scan_dir exclude_idents dir s w = (Ok s', w') →
  ∃ new, w_trace w' = new ++ w_trace w ∧
         ct s' = ct s + count_rmtree new ∧ count_rmtree new ≤ 1 ∧
         (deleted_idents s' = deleted_idents s ∨ 0 < count_rmtree new).
Proof.
  intros H. destruct (excluded exclude_idents dir) eqn:Hex.
  - rewrite scan_dir_excluded in H by exact Hex. inversion H; subst.
    exists []. change (count_rmtree []) with 0. repeat split; auto; lia.
  - rewrite scan_dir_not_excluded in H by exact Hex. rewrite bind_unfold in H.
    pose proof (emits_get_idents (λ ev, is_rmtree ev = false) dir eq_refl w) as F1.
    destruct (_get_idents_from_pdd dir w) as [[ids|e] w1]; [|discriminate].
    simpl in F1. destruct (frame_no_rmtree _ _ _ F1 (λ ev Hev, Hev)) as (n1 & T1 & C1 & _).
    rewrite bind_unfold in H.
    pose proof (emits_is_alive (λ ev, is_rmtree ev = false) dir eq_refl
                  (λ pid, eq_refl) w1) as F2.
    destruct (is_alive dir w1) as [[v|e] w2]; [|discriminate].
    simpl in F2. destruct (frame_no_rmtree _ _ _ F2 (λ ev Hev, Hev)) as (n2 & T2 & C2 & _).
    destruct (truthy v).
    + inversion H; subst. exists (n2 ++ n1).
      split; [rewrite T2, T1, app_assoc; reflexivity|].
      rewrite count_rmtree_app, C1, C2. simpl. repeat split; auto; lia.
    + rewrite bind_unfold in H. unfold rmtree in H.
      destruct (e_rmtree (lookup_entry dir w2)); [discriminate|].
      inversion H; subst. exists (EvRmtree dir :: n2 ++ n1).
      split; [simpl; rewrite T2, T1, app_assoc; reflexivity|].
      change (EvRmtree dir :: n2 ++ n1) with ([EvRmtree dir] ++ n2 ++ n1).
      rewrite !count_rmtree_app, C1, C2.
      change (count_rmtree [EvRmtree dir]) with 1. simpl. repeat split; auto; lia.
Qed.

Lemma scan_loop_counts (exclude_idents : list string) (dirs : list string) (s s' : scan)
    (w w' : world) :
  for_each dirs (scan_dir exclude_idents) s w = (Ok s', w') →
  ∃ new, w_trace w' = new ++ w_trace w ∧
         ct s' = ct s + count_rmtree new ∧
         count_rmtree new ≤ Z.of_nat (length dirs) ∧
         (deleted_idents s' = deleted_idents s ∨ 0 < count_rmtree new).
Proof.
  revert s w. induction dirs as [|d dirs IH]; intros s w H.
  - inversion H; subst. exists []. change (count_rmtree []) with 0.
    repeat split; auto; simpl; lia.
  - rewrite for_each_cons, bind_unfold in H.
    destruct (scan_dir exclude_idents d s w) as [[s1|e] w1] eqn:E; [|discriminate].
    destruct (scan_dir_counts _ _ _ _ _ _ E) as (n1 & T1 & C1 & B1 & D1).
    destruct (IH _ _ H) as (n2 & T2 & C2 & B2 & D2).
    exists (n2 ++ n1). split; [rewrite T2, T1, app_assoc; reflexivity|].
    rewrite count_rmtree_app.
    pose proof (count_rmtree_nonneg n1). pose proof (count_rmtree_nonneg n2).
    repeat split; try lia.
    + rewrite length_cons. lia.
    + destruct D1 as [D1|D1]; [|right; lia].
      destruct D2 as [D2|D2]; [left; congruence|right; lia].
Qed.

Section Counting.

Variable registry_auth_prefix : string.

(** X7.  The number [cleanup_dirs] returns is the number of [rmtree] calls
    of its first loop: the private data directories it removed, not the
    credential directories.  It lies between 0 and the number of selected
    paths, and when it is 0 the whole call has left the file system as it
    was. *)
Theorem cleanup_dirs_counts_removals (pattern : string) (exclude_idents : list string)
    (w w' : world) (n : Z) :
  cleanup_dirs registry_auth_prefix pattern exclude_idents w = (Ok n, w') →
  ∃ scan_events,
    w_trace (cleanup_dirs_scan pattern exclude_idents w).2 = scan_events ++ w_trace w ∧
    n = count_rmtree scan_events ∧
    0 ≤ n ≤ Z.of_nat (length (matches pattern w)) ∧
    (n = 0 → w_fs w' = w_fs w).
Proof.
  intros H. unfold cleanup_dirs in H. rewrite bind_unfold in H.
  pose proof (cleanup_dirs_scan_frame pattern exclude_idents w) as F.
  destruct (cleanup_dirs_scan pattern exclude_idents w) as [[s|e] w1] eqn:Hscan;
    [|discriminate].
  simpl in F.
  assert (Hloop : for_each (matches pattern w) (scan_dir exclude_idents)
                    {| ct := 0; running_idents := []; deleted_idents := [] |}
                    (log (EvGlob pattern) w) = (Ok s, w1)).
  { unfold cleanup_dirs_scan, iglob in Hscan. rewrite bind_unfold in Hscan. exact Hscan. }
  destruct (scan_loop_counts _ _ _ _ _ _ Hloop) as (new & T & C & B & D).
  simpl in T, C, D.
  assert (Hn : n = ct s).
  { destruct (cleanup_dirs_auth_loop registry_auth_prefix pattern exclude_idents s w1)
      as (w2 & _ & _ & E).
    rewrite E, bind_unfold in H.
    destruct (for_each _ _ tt w2) as [[[]|e] w3]; [|discriminate].
    by inversion H. }
  exists (new ++ [EvGlob pattern]). simpl.
  split; [rewrite T, <- app_assoc; reflexivity|].
  rewrite count_rmtree_app. change (count_rmtree [EvGlob pattern]) with 0.
  pose proof (count_rmtree_nonneg new).
  split; [lia|]. split; [lia|].
  intros Hzero.
  assert (Hc : count_rmtree new = 0) by lia.
  assert (Hdel : deleted_idents s = []) by (destruct D as [D|D]; [exact D|lia]).
  assert (Hfs1 : w_fs w1 = w_fs w).
  { destruct F as [_ _ _ (new' & T' & _ & S') _].
    assert (new' = new ++ [EvGlob pattern]).
    { rewrite T, cons_middle, app_assoc in T'.
      symmetry. by apply app_inv_tail in T'. }
    subst new'. apply map_eq. intros p. apply S'. apply Forall_forall.
    intros ev [Hev|Hev]%elem_of_app d ->.
    - apply (count_rmtree_zero _ Hc) in Hev. discriminate.
    - apply list_elem_of_singleton in Hev. discriminate. }
  destruct (cleanup_dirs_auth_loop registry_auth_prefix pattern exclude_idents s w1)
    as (w2 & F2 & _ & E).
  rewrite E, bind_unfold, Hdel in H.
  pose proof (auth_loop_nothing_deleted registry_auth_prefix exclude_idents
                (running_idents s) (matches (registry_auth_pattern registry_auth_prefix) w1)
                w2) as (Hw & _ & _).
  destruct (for_each _ _ tt w2) as [[[]|e] w3]; [|discriminate].
  simpl in Hw. subst w3. inversion H; subst w'.
  rewrite <- Hfs1. eapply frame_fs; [exact F2|].
  intros ev [[m ->]| ->]; reflexivity.
Qed.

(** ** What [cleanup_dirs] can touch *)

Lemma cleanup_dirs_frame (pattern : string) (exclude_idents : list string) (w : world) :
  frame (cleanup_event registry_auth_prefix pattern exclude_idents w) w
    (cleanup_dirs registry_auth_prefix pattern exclude_idents w).2.
Proof.
  pose proof (cleanup_dirs_scan_frame pattern exclude_idents w) as F1.
  assert (F1' : frame (cleanup_event registry_auth_prefix pattern exclude_idents w) w
                  (cleanup_dirs_scan pattern exclude_idents w).2).
  { eapply frame_weaken; [|exact F1].
    intros ev [->|[[pid ->]|(d & Hd & Hx & Hev)]].
    - by left.
    - right; right; right; left. by exists pid.
    - right; right; right; right; left. by exists d. }
  unfold cleanup_dirs. rewrite bind_unfold.
  destruct (cleanup_dirs_scan pattern exclude_idents w) as [[s|e] w1]; [|exact F1'].
  simpl in F1, F1'.
  destruct (cleanup_dirs_auth_loop registry_auth_prefix pattern exclude_idents s w1)
    as (w2 & F2 & _ & ->).
  pose proof (emits_auth_loop registry_auth_prefix exclude_idents s
                (matches (registry_auth_pattern registry_auth_prefix) w1) w2) as F3.
  rewrite bind_unfold.
  eapply frame_trans; [exact F1'|]. eapply frame_trans.
  - eapply frame_weaken; [|exact F2].
    intros ev [[m ->]| ->]; [right; right; left; by exists m|right; by left].
  - eapply frame_weaken;
      [|destruct (for_each _ _ tt w2) as [[[]|e] w3]; exact F3].
    intros ev [[m ->]|(d & i & -> & Hd & _)]; [right; right; left; by exists m|].
    right; right; right; right; right. exists d. split; [|reflexivity].
    apply elem_of_matches in Hd as [Hm [x Hx]]. apply elem_of_matches.
    split; [by rewrite <- (frame_fnmatch _ _ _ F1)|].
    destruct (w_fs w !! d) as [y|] eqn:Hy; [by exists y|].
    apply (frame_gone _ _ _ F1) in Hy. congruence.
Qed.

(** X8.  Whether it returns or raises, [cleanup_dirs] calls [rmtree] only on
    paths that one of its two listings yielded at the start (for the
    first, only those the exclusion list lets through), so that every
    path that does not lie at or beneath such a path keeps its state; it
    sends no signal but signal 0, and it runs no command. *)
Theorem cleanup_dirs_stays_within_listings (pattern : string)
    (exclude_idents : list string) (w : world) :
  ∃ new,
    w_trace (cleanup_dirs registry_auth_prefix pattern exclude_idents w).2
      = new ++ w_trace w ∧
    (∀ d, EvRmtree d ∈ new →
          (d ∈ matches pattern w ∧ excluded exclude_idents d = false) ∨
          d ∈ matches (registry_auth_pattern registry_auth_prefix) w) ∧
    (∀ pid sig, EvKill pid sig ∈ new → sig = 0) ∧
    (∀ cmd outcome, EvRun cmd outcome ∉ new) ∧
    (∀ p, (∀ d, d ∈ matches pattern w ∨
                d ∈ matches (registry_auth_pattern registry_auth_prefix) w →
                beneath d p = false) →
          w_fs (cleanup_dirs registry_auth_prefix pattern exclude_idents w).2 !! p
            = w_fs w !! p).
Proof.
  destruct (cleanup_dirs_frame pattern exclude_idents w) as [_ _ _ (new & T & A & S) _].
  rewrite Forall_forall in A.
  exists new. split; [exact T|]. split; [|split; [|split]].
  - intros d Hd.
    destruct (A _ Hd) as [?|[?|[[m ?]|[[pid ?]|[(d' & Hm & Hx & Hev)|(d' & Hm & Hev)]]]]];
      try discriminate.
    + destruct Hev as [?|[?|Hev]]; try discriminate. injection Hev as ->. by left.
    + injection Hev as ->. by right.
  - intros pid sig Hk.
    destruct (A _ Hk) as [?|[?|[[m ?]|[[pid' Hev]|[(d' & Hm & Hx & Hev)|(d' & Hm & Hev)]]]]];
      try discriminate.
    + by injection Hev as _ ->.
    + destruct Hev as [?|[?|?]]; discriminate.
  - intros cmd outcome Hr.
    destruct (A _ Hr) as [?|[?|[[m ?]|[[pid' ?]|[(d' & Hm & Hx & Hev)|(d' & Hm & Hev)]]]]];
      try discriminate.
    destruct Hev as [?|[?|?]]; discriminate.
  - intros p Hp. apply S. apply Forall_forall. intros ev Hev d ->.
    destruct (A _ Hev) as [?|[?|[[m ?]|[[pid ?]|[(d' & Hm & Hx & He)|(d' & Hm & He)]]]]];
      try discriminate.
    + destruct He as [?|[?|He]]; try discriminate. injection He as ->. apply Hp. by left.
    + injection He as ->. apply Hp. by right.
Qed.

End Counting.

(** ** Where the identifiers come from *)

Lemma fs_sub_refl (w : world) : fs_sub w w.
Proof. intros p x H. exact H. Qed.

Lemma fs_sub_trans (w1 w2 w3 : world) : fs_sub w1 w2 → fs_sub w2 w3 → fs_sub w1 w3.
Proof. intros H1 H2 p x H. apply H1, H2, H. Qed.

Lemma fs_sub_eq (w w' : world) : w_fs w' = w_fs w → fs_sub w w'.
Proof. intros E p x H. by rewrite <- E. Qed.

Lemma fs_sub_entry (w0 w : world) (dir : string) (ids : list string) :
  fs_sub w0 w → e_artifacts (lookup_entry dir w) = Ok ids →
  e_artifacts (lookup_entry dir w0) = Ok ids.
Proof.
  unfold lookup_entry. intros Hsub H.
  destruct (w_fs w !! dir) as [x|] eqn:E; [|discriminate].
  by rewrite (Hsub _ _ E).
Qed.

(** One round of the first loop: the file system only loses paths, and an
    identifier that is new in one of the two lists is an entry of the
    artifacts of the directory of the round. *)
Lemma scan_dir_idents (exclude_idents : list string) (dir : string) (s s' : scan)
    (w w' : world) :
  scan_dir exclude_idents dir s w = (Ok s', w') →
  fs_sub w w' ∧
  ∀ ident, ident ∈ running_idents s' ∨ ident ∈ deleted_idents s' →
    (ident ∈ running_idents s ∨ ident ∈ deleted_idents s) ∨
    (excluded exclude_idents dir = false ∧
     ∃ ids, e_artifacts (lookup_entry dir w) = Ok ids ∧ ident ∈ ids).
Proof.
  intros H. destruct (excluded exclude_idents dir) eqn:Hex.
  - rewrite scan_dir_excluded in H by exact Hex. inversion H; subst.
    split; [apply fs_sub_refl|auto].
  - rewrite scan_dir_not_excluded in H by exact Hex. rewrite bind_unfold in H.
    rewrite get_idents_outcome in H.
    assert (Hids : ∀ ids, (match e_artifacts (lookup_entry dir w) with
                           | Ok ids => Ok ids
                           | Raise e => if is_FileNotFoundError e then Ok [] else Raise e
                           end) = Ok ids →
                   ∀ ident, ident ∈ ids →
                     ∃ ids', e_artifacts (lookup_entry dir w) = Ok ids' ∧ ident ∈ ids').
    { intros ids E ident Hin. destruct (e_artifacts (lookup_entry dir w)) as [ids'|e].
      - inversion E; subst. eauto.
      - destruct (is_FileNotFoundError e); [|discriminate]. inversion E; subst.
        inversion Hin. }
    destruct (match e_artifacts (lookup_entry dir w) with
              | Ok ids => Ok ids
              | Raise e => if is_FileNotFoundError e then Ok [] else Raise e
              end) as [ids|e]; [|discriminate].
    specialize (Hids ids eq_refl). rewrite bind_unfold in H.
    pose proof (emits_is_alive (λ ev, is_rmtree ev = false) dir eq_refl
                  (λ pid, eq_refl) (log (EvListdir dir) w)) as F2.
    destruct (is_alive dir (log (EvListdir dir) w)) as [[v|e] w2]; [|discriminate].
    simpl in F2. pose proof (frame_fs _ _ _ F2 (λ ev Hev, Hev)) as Hfs2. simpl in Hfs2.
    destruct (truthy v).
    + inversion H; subst. split; [by apply fs_sub_eq|].
      simpl. intros ident [[Hi|Hi]%elem_of_app|Hi]; auto.
    + rewrite bind_unfold in H. unfold rmtree in H.
      destruct (e_rmtree (lookup_entry dir w2)); [discriminate|].
      inversion H; subst. split.
      * intros p x Hp. simpl in Hp. apply map_lookup_filter_Some in Hp as [Hp _].
        by rewrite <- Hfs2.
      * simpl. intros ident [Hi|[Hi|Hi]%elem_of_app]; auto.
Qed.

Lemma scan_loop_idents (exclude_idents : list string) (dirs : list string) (s s' : scan)
    (w0 w w' : world) :
  fs_sub w0 w →
  for_each dirs (scan_dir exclude_idents) s w = (Ok s', w') →
  ∀ ident, ident ∈ running_idents s' ∨ ident ∈ deleted_idents s' →
    (ident ∈ running_idents s ∨ ident ∈ deleted_idents s) ∨
    ∃ dir ids, dir ∈ dirs ∧ excluded exclude_idents dir = false ∧
               e_artifacts (lookup_entry dir w0) = Ok ids ∧ ident ∈ ids.
Proof.
  revert s w. induction dirs as [|d dirs IH]; intros s w Hsub H ident Hin.
  - inversion H; subst. auto.
  - rewrite for_each_cons, bind_unfold in H.
    destruct (scan_dir exclude_idents d s w) as [[s1|e] w1] eqn:E; [|discriminate].
    destruct (scan_dir_idents _ _ _ _ _ _ E) as [Hsub1 Hstep].
    destruct (IH s1 w1 (fs_sub_trans _ _ _ Hsub Hsub1) H ident Hin)
      as [Hold|(dir & ids & Hd & Hx & Ha & Hi)].
    + destruct (Hstep ident Hold) as [Hs|(Hx & ids & Ha & Hi)]; [by left|].
      right. exists d, ids. repeat split; auto; [left|].
      by apply (fs_sub_entry w0 w).
    + right. exists dir, ids. repeat split; auto. by right.
Qed.

(** X9.  When the first loop of [cleanup_dirs] is through, every identifier
    in the list of running identifiers or in the list of deleted ones is
    an entry of the artifacts directory of a path that the pattern
    selected and the exclusion list let through: no identifier is made
    up, and excluded directories contribute none. *)
Theorem idents_come_from_listings (pattern : string) (exclude_idents : list string)
    (w w1 : world) (s : scan) :
  cleanup_dirs_scan pattern exclude_idents w = (Ok s, w1) →
  ∀ ident, ident ∈ running_idents s ∨ ident ∈ deleted_idents s →
    ∃ dir ids, dir ∈ matches pattern w ∧ excluded exclude_idents dir = false ∧
               e_artifacts (lookup_entry dir w) = Ok ids ∧ ident ∈ ids.
Proof.
  intros H ident Hin. unfold cleanup_dirs_scan, iglob in H. rewrite bind_unfold in H.
  destruct (scan_loop_idents exclude_idents (matches pattern w) _ s w
              (log (EvGlob pattern) w) w1 (fs_sub_refl _) H ident Hin)
    as [[Ho|Ho]|Hnew]; [inversion Ho|inversion Ho|exact Hnew].
Qed.

(** ** Failing commands *)

Lemma raises_with_mret {A : Type} (Q : exn → world → Prop) (a : A) : raises_with Q (mret a).
Proof. intros w e w' H. discriminate. Qed.

Lemma raises_with_print (Q : exn → world → Prop) (m : message) : raises_with Q (print m).
Proof. intros w e w' H. discriminate. Qed.

Lemma raises_with_bind {A B : Type} (Q : exn → world → Prop) (m : M A) (f : A → M B) :
  raises_with Q m → (∀ a, raises_with Q (f a)) → raises_with Q (m ≫= f).
Proof.
  intros Hm Hf w e w' H. rewrite bind_unfold in H.
  destruct (m w) as [[a|e1] w1] eqn:E.
  - by apply (Hf a w1).
  - inversion H; subst. by apply (Hm w).
Qed.

Lemma raises_with_if {A : Type} (Q : exn → world → Prop) (b : bool) (m1 m2 : M A) :
  raises_with Q m1 → raises_with Q m2 → raises_with Q (if b then m1 else m2).
Proof. by destruct b. Qed.

Lemma raises_with_for_each {A S : Type} (Q : exn → world → Prop) (l : list A)
    (body : A → S → M S) :
  (∀ x s, raises_with Q (body x s)) → ∀ s, raises_with Q (for_each l body s).
Proof.
  intros Hb. induction l as [|x l IH]; intros s.
  - apply raises_with_mret.
  - rewrite for_each_cons. apply raises_with_bind; auto.
Qed.

Lemma run_command_raises (cmd : list string) :
  raises_with command_failure (run_command cmd).
Proof.
  intros w e w' H. unfold run_command, subprocess_run in H. rewrite bind_unfold in H.
  destruct (w_exec w (w_trace w) cmd) as [[rc [out|]]|e0] eqn:E; cbn in H.
  - destruct (rc =? 0) eqn:Hrc; cbn in H; [discriminate|].
    injection H as <- <-. right. right. split; [reflexivity|].
    exists cmd, rc, out, (w_trace w). split; [by apply Z.eqb_neq|].
    split; [reflexivity|exact E].
  - injection H as <- <-. right. left. split; [reflexivity|].
    exists cmd, rc, (w_trace w). split; [reflexivity|exact E].
  - injection H as <- <-. left. exists cmd, (w_trace w). split; [reflexivity|exact E].
Qed.

(** X10.  [cleanup_images] and [prune_images] raise only what
    [run_command] raises, and the command that failed is then the last one
    that was run: either [subprocess.run] raised because the program could
    not be started, and this exception is passed on with nothing printed;
    or the output of the command does not decode and [UnicodeDecodeError]
    is raised, whatever the exit status, with nothing printed; or the
    command exited with a status other than 0 and [RuntimeError] is raised
    after the four lines that report the command and its output. *)
Theorem runtime_failure_is_reported (images : list string) (runtime : string) (w : world) :
  (∀ e w', cleanup_images images runtime w = (Raise e, w') → command_failure e w') ∧
  (∀ e w', prune_images runtime w = (Raise e, w') → command_failure e w').
Proof.
  split; intros e w' H.
  - revert w e w' H. unfold cleanup_images. apply raises_with_bind.
    + apply raises_with_for_each. intros tag n. unfold remove_image.
      apply raises_with_bind; [apply run_command_raises|]. intros out.
      apply raises_with_if; [apply raises_with_mret|].
      apply raises_with_for_each. intros l k. unfold remove_tag.
      apply raises_with_bind; [apply run_command_raises|]. intros out'.
      apply raises_with_mret.
    + intros n. apply raises_with_bind; [|intros _; apply raises_with_mret].
      apply raises_with_if; [apply raises_with_print|apply raises_with_mret].
  - revert w e w' H. unfold prune_images.
    apply raises_with_bind; [apply run_command_raises|]. intros out.
    apply raises_with_if; [apply raises_with_mret|].
    apply raises_with_bind; [apply raises_with_print|]. intros _. apply raises_with_mret.
Qed.

(** ** The commands run for one tag *)

Lemma commands_of_app (evs1 evs2 : list event) :
  commands_of (evs1 ++ evs2) = commands_of evs2 ++ commands_of evs1.
Proof. unfold commands_of. by rewrite reverse_app, omap_app. Qed.

Lemma remove_tag_commands (runtime : string) (tags : list string) (rm_ct : Z) (w : world) :
  runtime_succeeds w →
  ∃ new w' n, for_each tags (remove_tag runtime) rm_ct w = (Ok n, w') ∧
    w_trace w' = new ++ w_trace w ∧ w_exec w' = w_exec w ∧
    commands_of new =
      map (λ l, [runtime; "rmi"; PyStr.strip_char PyStr.dquote (PyStr.strip l); "-f"]) tags.
Proof.
  revert rm_ct w. induction tags as [|tag tags IH]; intros rm_ct w Hw.
  - exists [], w, rm_ct. repeat split.
  - rewrite for_each_cons, bind_unfold. unfold remove_tag at 1.
    set (cmd := [runtime; "rmi"; PyStr.strip_char PyStr.dquote (PyStr.strip tag); "-f"]).
    destruct (runtime_succeeds_at w cmd Hw) as [out Hout].
    rewrite bind_unfold, (run_command_returns _ _ _ Hout). simpl.
    destruct (IH (rm_ct + Z.of_nat (PyStr.count "Untagged:" (PyStr.strip out)))
                (log (EvRun cmd (completed 0 out)) w) Hw) as (new & w' & n & E & T & X & C).
    exists (new ++ [EvRun cmd (completed 0 out)]), w', n. split; [exact E|]. split; [|split].
    + rewrite T, <- app_assoc. reflexivity.
    + exact X.
    + rewrite commands_of_app, C. reflexivity.
Qed.

(** X11.  With a runtime whose commands succeed, the commands that
    [cleanup_images] runs for one requested tag are, in this order: the
    listing of the tag, then one [rmi -f] for every line of the listing,
    each for the line without surrounding white space and double quotes;
    and none but the listing when the listing is empty. *)
Theorem remove_image_commands (runtime image_tag : string) (rm_ct : Z) (w : world) :
  runtime_succeeds w →
  ∃ out new w' n,
    w_exec w (w_trace w) [runtime; "images"; images_format; image_tag] = completed 0 out ∧
    remove_image runtime image_tag rm_ct w = (Ok n, w') ∧
    w_trace w' = new ++ w_trace w ∧
    commands_of new =
      [runtime; "images"; images_format; image_tag] ::
      (if String.eqb (PyStr.strip out) ""
       then []
       else map (λ l, [runtime; "rmi"; PyStr.strip_char PyStr.dquote (PyStr.strip l); "-f"])
              (PyStr.split PyStr.newline (PyStr.strip out))).
Proof.
  intros Hw.
  destruct (runtime_succeeds_at w [runtime; "images"; images_format; image_tag] Hw) as [out Hout].
  assert (Eq : remove_image runtime image_tag rm_ct w =
               (if String.eqb (PyStr.strip out) "" then mret rm_ct
                else for_each (PyStr.split PyStr.newline (PyStr.strip out))
                       (remove_tag runtime) rm_ct) (log (EvRun [runtime; "images"; images_format; image_tag] (completed 0 out)) w)).
  { unfold remove_image. rewrite bind_unfold, (run_command_returns _ _ _ Hout).
    reflexivity. }
  exists out. rewrite Eq. clear Eq.
  destruct (String.eqb (PyStr.strip out) "").
  - exists [EvRun [runtime; "images"; images_format; image_tag] (completed 0 out)], (log (EvRun [runtime; "images"; images_format; image_tag] (completed 0 out)) w), rm_ct. repeat split. exact Hout.
  - destruct (remove_tag_commands runtime (PyStr.split PyStr.newline (PyStr.strip out))
                rm_ct (log (EvRun [runtime; "images"; images_format; image_tag] (completed 0 out)) w) Hw) as (new & w' & n & E & T & _ & C).
    exists (new ++ [EvRun [runtime; "images"; images_format; image_tag] (completed 0 out)]), w', n. split; [exact Hout|]. split; [exact E|].
    split; [rewrite T, <- app_assoc; reflexivity|].
    rewrite commands_of_app, C. reflexivity.
Qed.

(** ** The order of the three engines and the final line *)

Lemma emits_run_command_quiet (P : event → Prop) (cmd : list string) :
  (∀ outcome, P (EvRun cmd outcome)) →
  (∀ m, status_line (EvPrint m) = false → P (EvPrint m)) →
  emits P (run_command cmd).
Proof.
  intros Hr Hp. unfold run_command. apply emits_bind.
  - apply emits_subprocess_run, Hr.
  - intros [rc b]. apply emits_bind; [apply emits_decode_utf8|]. intros out.
    apply emits_if.
    + repeat (apply emits_bind; [apply emits_print, Hp; reflexivity | intros _]).
      apply emits_raise.
    + apply emits_mret.
Qed.

Section Orchestrator.

Variable registry_auth_prefix : string.

Lemma emits_cleanup_dirs_quiet (pattern : string) (exclude_idents : list string) :
  emits (λ ev, (file_event ev = true ∨ print_event ev = true) ∧ status_line ev = false)
    (cleanup_dirs registry_auth_prefix pattern exclude_idents).
Proof.
  unfold cleanup_dirs. apply emits_bind.
  - unfold cleanup_dirs_scan. apply emits_bind.
    + apply emits_iglob. split; [by left|reflexivity].
    + intros dirs. apply emits_for_each. intros dir s _.
      apply emits_scan_dir; [intros _; repeat split; by left|intros pid; split; [by left|done]].
  - intros s. unfold cleanup_dirs_auth.
    apply emits_bind;
      [apply emits_if; [apply emits_print; split; [by right|done]|apply emits_mret]|].
    intros _.
    apply emits_bind;
      [apply emits_if; [apply emits_print; split; [by right|done]|apply emits_mret]|].
    intros _.
    apply emits_bind; [apply emits_iglob; split; [by left|done]|]. intros dirs.
    apply emits_bind; [|intros _; apply emits_mret].
    apply emits_for_each. intros dir [] _. unfold auth_dir.
    destruct (ident_re_match registry_auth_prefix dir); [|apply emits_raise].
    apply emits_if; [apply emits_mret|]. apply emits_if; [|apply emits_mret].
    apply emits_bind; [apply emits_rmtree; split; [by left|done]|].
    intros _. apply emits_print. split; [by right|done].
Qed.

Lemma emits_cleanup_images_quiet (images : list string) (runtime : string) :
  emits (λ ev, (image_event ev = true ∨ print_event ev = true) ∧ status_line ev = false)
    (cleanup_images images runtime).
Proof.
  unfold cleanup_images. apply emits_bind.
  - apply emits_for_each. intros tag rm_ct _. unfold remove_image.
    apply emits_bind.
    + apply emits_run_command_quiet;
        [intros outcome; split; [by left|done]|intros m Hm; split; [by right|done]].
    + intros stdout. apply emits_if; [apply emits_mret|].
      apply emits_for_each. intros dtag n _. unfold remove_tag.
      apply emits_bind; [|intros out; apply emits_mret].
      apply emits_run_command_quiet;
        [intros outcome; split; [by left|done]|intros m Hm; split; [by right|done]].
  - intros rm_ct.
    apply emits_bind;
      [apply emits_if; [apply emits_print; split; [by right|done]|apply emits_mret]|].
    intros _. apply emits_mret.
Qed.

Lemma emits_prune_images_quiet (runtime : string) :
  emits (λ ev, (prune_event ev = true ∨ print_event ev = true) ∧ status_line ev = false)
    (prune_images runtime).
Proof.
  unfold prune_images. apply emits_bind.
  - apply emits_run_command_quiet;
      [intros outcome; split; [by left|done]|intros m Hm; split; [by right|done]].
  - intros stdout. apply emits_if; [apply emits_mret|].
    apply emits_bind; [apply emits_print; split; [by right|done]|].
    intros _. apply emits_mret.
Qed.

Lemma emits_stage {A : Type} (P : event → Prop) (b : bool) (m : M A) (a : A) (w : world) :
  emits P m →
  ∃ new, w_trace ((if b then m else mret a) w).2 = new ++ w_trace w ∧ Forall P new.
Proof.
  intros Hm. destruct b.
  - destruct (Hm w) as [_ _ _ (new & T & A0 & _) _]. eauto.
  - exists []. split; [reflexivity|constructor].
Qed.

(** X12.  What [run_cleanup] does falls into four consecutive parts: the
    directory cleanup with its reports, then the listing and removal of
    images, then the prune command, then the final line.  The final line
    is printed once, last, and exactly when [run_cleanup] returns; when
    an engine raises, no final line is printed. *)
Theorem run_cleanup_in_order (vargs : options) (w : world) :
  ∃ dirs_events images_events prune_events final,
    w_trace (run_cleanup registry_auth_prefix vargs w).2 =
      final ++ prune_events ++ images_events ++ dirs_events ++ w_trace w ∧
    Forall (λ ev, (file_event ev = true ∨ print_event ev = true) ∧ status_line ev = false)
      dirs_events ∧
    Forall (λ ev, (image_event ev = true ∨ print_event ev = true) ∧ status_line ev = false)
      images_events ∧
    Forall (λ ev, (prune_event ev = true ∨ print_event ev = true) ∧ status_line ev = false)
      prune_events ∧
    (((run_cleanup registry_auth_prefix vargs w).1 = Ok tt ∧
      ∃ changed, final = [EvPrint (MsgChanged changed)]) ∨
     ((∃ e, (run_cleanup registry_auth_prefix vargs w).1 = Raise e) ∧ final = [])).
Proof.
  unfold run_cleanup.
  set (stage1 := if given (arg_file_pattern vargs)
                 then cleanup_dirs registry_auth_prefix (default "" (arg_file_pattern vargs))
                        (comma_sep_parse vargs arg_exclude_idents)
                 else mret 0).
  set (stage2 := if negb (bool_decide (comma_sep_parse vargs arg_remove_images = []))
                 then cleanup_images (comma_sep_parse vargs arg_remove_images)
                        (arg_process_isolation_executable vargs)
                 else mret 0).
  set (stage3 := if arg_image_prune vargs
                 then prune_images (arg_process_isolation_executable vargs)
                 else mret false).
  destruct (emits_stage _ (given (arg_file_pattern vargs)) _ 0 w
              (emits_cleanup_dirs_quiet (default "" (arg_file_pattern vargs))
                 (comma_sep_parse vargs arg_exclude_idents))) as (n1 & T1 & A1).
  fold stage1 in T1. rewrite bind_unfold.
  destruct (stage1 w) as [[dir_ct|e] w1]; simpl in T1.
  2:{ exists n1, [], [], []. simpl. split; [exact T1|]. split; [exact A1|].
      split; [constructor|]. split; [constructor|]. right. split; [by exists e|done]. }
  destruct (emits_stage _ (negb (bool_decide (comma_sep_parse vargs arg_remove_images = [])))
              _ 0 w1
              (emits_cleanup_images_quiet (comma_sep_parse vargs arg_remove_images)
                 (arg_process_isolation_executable vargs))) as (n2 & T2 & A2).
  fold stage2 in T2. rewrite bind_unfold.
  destruct (stage2 w1) as [[image_ct|e] w2]; simpl in T2.
  2:{ exists n1, n2, [], []. simpl. split; [by rewrite T2, T1|]. split; [exact A1|].
      split; [exact A2|]. split; [constructor|]. right. split; [by exists e|done]. }
  destruct (emits_stage _ (arg_image_prune vargs) _ false w2
              (emits_prune_images_quiet (arg_process_isolation_executable vargs)))
    as (n3 & T3 & A3).
  fold stage3 in T3. rewrite bind_unfold.
  destruct (stage3 w2) as [[pruned|e] w3]; simpl in T3.
  2:{ exists n1, n2, n3, []. simpl. split; [by rewrite T3, T2, T1|]. split; [exact A1|].
      split; [exact A2|]. split; [exact A3|]. right. split; [by exists e|done]. }
  exists n1, n2, n3,
    [EvPrint (MsgChanged (negb (dir_ct =? 0) || negb (image_ct =? 0) || pruned))].
  destruct (negb (dir_ct =? 0) || negb (image_ct =? 0) || pruned);
    (simpl; split; [by rewrite T3, T2, T1|]; split; [exact A1|];
     split; [exact A2|]; split; [exact A3|]; left; split; [reflexivity|eauto]).
Qed.

End Orchestrator.

(** ** The further properties at concrete inputs *)

Lemma is_alive_true_iff_kill_raises_witness :
  is_alive "/tmp/run-B" dead_world =
    (Ok (PyInt 1), log (EvKill 200 0) (log (EvOpen "/tmp/run-B") dead_world)) ∧
  (truthy (PyInt 1) = true ↔
   ∃ text pid e,
     e_pid (lookup_entry "/tmp/run-B" dead_world) = Ok text ∧
     PyStr.int (PyStr.readline text) = Some pid ∧
     w_kill dead_world pid = Some e ∧ is_OSError e = true).
Proof.
  assert (H : is_alive "/tmp/run-B" dead_world =
              (Ok (PyInt 1), log (EvKill 200 0) (log (EvOpen "/tmp/run-B") dead_world)))
    by (vm_compute; reflexivity).
  split; [exact H|].
  exact (proj1 (is_alive_true_iff_kill_raises "/tmp/run-B" dead_world) _ _ H).
Defined.

Lemma listing_error_is_fatal_witness :
  e_artifacts (lookup_entry "/tmp/run-F" file_world) = Raise NotADirectoryError ∧
  matches "/tmp/run-*" file_world = ["/tmp/run-F"] ∧
  cleanup_dirs example_prefix "/tmp/run-*" [] file_world =
    (Raise NotADirectoryError,
     log (EvListdir "/tmp/run-F") (log (EvGlob "/tmp/run-*") file_world)).
Proof.
  assert (Ha : e_artifacts (lookup_entry "/tmp/run-F" file_world) = Raise NotADirectoryError)
    by (vm_compute; reflexivity).
  assert (Hm : matches "/tmp/run-*" file_world = ["/tmp/run-F"])
    by (vm_compute; reflexivity).
  split; [exact Ha|]. split; [exact Hm|].
  exact (proj2 (listing_error_is_fatal example_prefix "/tmp/run-F" file_world
                  NotADirectoryError [] Ha eq_refl eq_refl) "/tmp/run-*" [] Hm).
Defined.

Lemma missing_artifacts_no_idents_witness :
  e_artifacts (lookup_entry "/tmp/run-D" odd_world) = Raise FileNotFoundError ∧
  _get_idents_from_pdd "/tmp/run-D" odd_world =
    (Ok [], log (EvListdir "/tmp/run-D") odd_world) ∧
  (scan_dir [] "/tmp/run-D" {| ct := 0; running_idents := ["j3"]; deleted_idents := [] |}
     odd_world).1 = Ok {| ct := 1; running_idents := ["j3"]; deleted_idents := [] |}.
Proof.
  assert (Ha : e_artifacts (lookup_entry "/tmp/run-D" odd_world) = Raise FileNotFoundError)
    by (vm_compute; reflexivity).
  split; [exact Ha|].
  split.
  - exact (proj1 (missing_artifacts_no_idents "/tmp/run-D" odd_world []
                    {| ct := 0; running_idents := ["j3"]; deleted_idents := [] |}
                    Ha eq_refl)).
  - vm_compute. reflexivity.
Defined.

Lemma cleanup_dirs_counts_removals_witness :
  cleanup_dirs example_prefix "/tmp/run-*" [] demo_world =
    (Ok 1, (cleanup_dirs example_prefix "/tmp/run-*" [] demo_world).2) ∧
  ∃ scan_events,
    w_trace (cleanup_dirs_scan "/tmp/run-*" [] demo_world).2 =
      scan_events ++ w_trace demo_world ∧
    1 = count_rmtree scan_events ∧
    0 ≤ 1 ≤ Z.of_nat (length (matches "/tmp/run-*" demo_world)).
Proof.
  assert (H : cleanup_dirs example_prefix "/tmp/run-*" [] demo_world =
              (Ok 1, (cleanup_dirs example_prefix "/tmp/run-*" [] demo_world).2))
    by (vm_compute; reflexivity).
  split; [exact H|].
  destruct (cleanup_dirs_counts_removals example_prefix "/tmp/run-*" [] demo_world _ _ H)
    as (evs & T & C & B & _).
  exists evs. auto.
Defined.

Lemma idents_come_from_listings_witness :
  cleanup_dirs_scan "/tmp/run-*" [] demo_world =
    (Ok {| ct := 1; running_idents := ["j2"]; deleted_idents := ["j1"] |},
     (cleanup_dirs_scan "/tmp/run-*" [] demo_world).2) ∧
  ∃ dir ids, dir ∈ matches "/tmp/run-*" demo_world ∧ excluded [] dir = false ∧
             e_artifacts (lookup_entry dir demo_world) = Ok ids ∧ "j2" ∈ ids.
Proof.
  assert (H : cleanup_dirs_scan "/tmp/run-*" [] demo_world =
              (Ok {| ct := 1; running_idents := ["j2"]; deleted_idents := ["j1"] |},
               (cleanup_dirs_scan "/tmp/run-*" [] demo_world).2))
    by (vm_compute; reflexivity).
  split; [exact H|].
  apply (idents_come_from_listings "/tmp/run-*" [] demo_world _ _ H "j2").
  left. simpl. left.
Defined.

Lemma blank_output_is_no_output_witness :
  all_chars PyStr.isspace (line " ") = true ∧
  prune_images "podman" blank_world =
    (Ok false, log (EvRun ["podman"; "image"; "prune"; "-f"] (completed 0 (line " "))) blank_world) ∧
  remove_image "podman" "app" 0 blank_world =
    (Ok 0, log (EvRun ["podman"; "images"; images_format; "app"] (completed 0 (line " "))) blank_world).
Proof.
  assert (Hb : all_chars PyStr.isspace (line " ") = true) by (vm_compute; reflexivity).
  split; [exact Hb|].
  destruct (blank_output_is_no_output "podman" "app" 0 blank_world (line " ") Hb)
    as [H1 H2].
  split; [apply H1|apply H2]; reflexivity.
Defined.

Lemma runtime_failure_is_reported_witness :
  cleanup_images ["app"; "other"] "podman" broken_world =
    (Raise RuntimeError, (cleanup_images ["app"; "other"] "podman" broken_world).2) ∧
  command_failure RuntimeError (cleanup_images ["app"; "other"] "podman" broken_world).2 ∧
  w_trace (cleanup_images ["app"; "other"] "podman" broken_world).2 =
    failure_report ["podman"; "rmi"; "repo/app:latest"; "-f"] 125
      "Error: image is in use by a container"
    ++ [EvRun ["podman"; "images"; images_format; "app"] (completed 0 "repo/app:latest")].
Proof.
  assert (H : cleanup_images ["app"; "other"] "podman" broken_world =
              (Raise RuntimeError,
               (cleanup_images ["app"; "other"] "podman" broken_world).2))
    by (vm_compute; reflexivity).
  split; [exact H|]. split.
  - exact (proj1 (runtime_failure_is_reported ["app"; "other"] "podman" broken_world)
             _ _ H).
  - vm_compute. reflexivity.
Defined.

Lemma remove_image_commands_witness :
  runtime_succeeds demo_world ∧
  ∃ out new w' n,
    w_exec demo_world (w_trace demo_world) ["podman"; "images"; images_format; "app"]
      = completed 0 out ∧
    remove_image "podman" "app" 0 demo_world = (Ok n, w') ∧
    w_trace w' = new ++ w_trace demo_world ∧
    commands_of new =
      ["podman"; "images"; images_format; "app"] ::
      (if String.eqb (PyStr.strip out) ""
       then []
       else map (λ l, ["podman"; "rmi"; PyStr.strip_char PyStr.dquote (PyStr.strip l); "-f"])
              (PyStr.split PyStr.newline (PyStr.strip out))).
Proof.
  assert (Hrt : runtime_succeeds demo_world) by (intros tr cmd; eexists; reflexivity).
  split; [exact Hrt|].
  exact (remove_image_commands "podman" "app" 0 demo_world Hrt).
Defined.

(** ** Further runs in full *)

Example demo_comma_sep_parse :
  comma_sep_parse all_options arg_remove_images = ["app"] ∧
  comma_sep_parse no_options arg_exclude_idents = [] ∧
  PyStr.split ","%char "j1,,j2," = ["j1"; ""; "j2"; ""] ∧
  PyStr.split ","%char " a, b" = [" a"; " b"] ∧
  str_join "," ["j1"; ""; "j2"; ""] = "j1,,j2,".
Proof. repeat split; vm_compute; reflexivity. Qed.

Example demo_remove_image_commands :
  commands_of (w_trace (remove_image "podman" "app" 0 demo_world).2) =
    [["podman"; "images"; images_format; "app"];
     ["podman"; "rmi"; "repo/app:latest"; "-f"];
     ["podman"; "rmi"; "repo/app:v1"; "-f"]].
Proof. vm_compute. reflexivity. Qed.

Example demo_command_failures :
  prune_images "podman" no_runtime_world =
    (Raise FileNotFoundError,
     log (EvRun ["podman"; "image"; "prune"; "-f"] (Raise FileNotFoundError))
       no_runtime_world) ∧
  cleanup_images ["app"] "podman" no_runtime_world =
    (Raise FileNotFoundError,
     log (EvRun ["podman"; "images"; images_format; "app"] (Raise FileNotFoundError))
       no_runtime_world) ∧
  (cleanup_images ["app"] "podman" garbled_world).1 = Raise UnicodeDecodeError ∧
  w_trace (cleanup_images ["app"] "podman" garbled_world).2 =
    [EvRun ["podman"; "rmi"; "repo/app:latest"; "-f"] (Ok (0, None));
     EvRun ["podman"; "images"; images_format; "app"] (completed 0 "repo/app:latest")].
Proof. repeat split; vm_compute; reflexivity. Qed.
